(** * Player-style clustering service: reducer, lookup, similarity search

    A shallow embedding of the inference-critical functions of
    [src/api.py] and [src/train_model.py].

    Conventions of the embedding.
    - Python floats are exact rationals ([Q]); every mean is kept in lowest
      terms ([Qred]), so that equal numbers are equal terms.  The rounding
      of binary64 arithmetic is outside the model, and so are NaN and
      infinities: a numeric cell always holds a number, a table with a
      missing attribute value is not represented ([df_wf]).
    - A [dict] with string keys is a [gmap string _]; a dict literal that is
      iterated ([style_dims.items()]) is an association list in insertion
      order.
    - A pandas DataFrame is stored column-wise, text columns apart from
      numeric ones.  A string is its sequence of bytes; what is proved of
      case-insensitive matching is restricted to ASCII text
      ([ascii_only]).
    - Calls into numpy, pandas and Python's [re] are modelled by what they
      compute; the regular-expression engine is a parameter of the lookup. *)

From Stdlib Require Import QArith Qreduction ZArith Lia List Ascii String.
From Stdlib Require Import Reals Qreals Lra.
From stdpp Require Import gmap strings list sorting pretty.

Local Open Scope Q_scope.

(** ** Helper functions of [api.py] *)

(** [np.mean(values)] of a one-dimensional list: the sum over the count. *)
Definition np_sum (values : list Q) : Q := fold_right Qplus 0 values.

Definition np_mean (values : list Q) : Q :=
  Qred (np_sum values / inject_Z (Z.of_nat (length values))).

(** The literal [style_dims] of [create_style_dimensions], in insertion
    order. *)
Definition style_dims : list (string * list string) :=
  [ ("pace", ["movement_acceleration"; "movement_sprint_speed"]);
    ("dribbling", ["skill_dribbling"; "skill_ball_control";
                   "movement_agility"; "movement_balance"]);
    ("creativity", ["attacking_short_passing"; "skill_long_passing";
                    "mentality_vision"; "skill_curve"]);
    ("finishing", ["attacking_finishing"; "power_shot_power";
                   "mentality_positioning"]);
    ("defense", ["mentality_interceptions"; "defending_standing_tackle";
                 "defending_sliding_tackle"; "mentality_aggression"]);
    ("physicality", ["power_strength"; "power_stamina"; "power_jumping"]) ]%string.

(** [attributes.get(attr, 50)]. *)
Definition get_or_50 (attributes : gmap string Q) (attr : string) : Q :=
  default 50 (attributes !! attr).

(** [create_style_dimensions]: one mean per entry of [style_dims], over
    [attributes.get(attr, 50)] for every candidate attribute. *)
Definition create_style_dimensions (attributes : gmap string Q) : list Q :=
  map (fun '(dimension, attrs) => np_mean (map (get_or_50 attributes) attrs))
      style_dims.

(** ** Data frames

    [len_df] is [len(df)].  Text columns hold the display names ([None] is a
    missing value); numeric columns hold the attributes.  Columns named
    after a candidate attribute are numeric and columns named after a
    display-name column are text, so [col in df.columns] is a lookup in the
    matching map. *)
Record DataFrame := {
  len_df : nat;
  text_cols : gmap string (list (option string));
  num_cols : gmap string (list Q) }.

(** Every column of a data frame has [len(df)] cells: in particular every
    attribute column holds a number in every row. *)
Definition df_wf (df : DataFrame) : Prop :=
  map_Forall (fun _ (c : list (option string)) => length c = len_df df) (text_cols df)
  /\ map_Forall (fun _ (c : list Q) => length c = len_df df) (num_cols df).

(** [df.iloc[r].to_dict()], restricted to the numeric columns. *)
Definition to_dict (df : DataFrame) (r : nat) : gmap string Q :=
  omap (fun c : list Q => c !! r) (num_cols df).

(** The literal [style_dims] of [create_style_dimensions_batch] (the same
    table as [PlayerStyleTrainer.STYLE_DIMENSIONS]). *)
Definition style_dims_batch : list (string * list string) :=
  [ ("pace", ["movement_acceleration"; "movement_sprint_speed";
              "acceleration"; "sprint_speed"]);
    ("dribbling", ["skill_dribbling"; "skill_ball_control";
                   "movement_agility"; "movement_balance";
                   "dribbling"; "ball_control"; "agility"; "balance"]);
    ("creativity", ["attacking_short_passing"; "skill_long_passing";
                    "mentality_vision"; "skill_curve";
                    "short_passing"; "long_passing"; "vision"; "curve"]);
    ("finishing", ["attacking_finishing"; "power_shot_power";
                   "mentality_positioning";
                   "finishing"; "shot_power"; "positioning"]);
    ("defense", ["mentality_interceptions"; "defending_standing_tackle";
                 "defending_sliding_tackle"; "mentality_aggression";
                 "interceptions"; "standing_tackle"; "sliding_tackle";
                 "aggression"]);
    ("physicality", ["power_strength"; "power_stamina"; "power_jumping";
                     "strength"; "stamina"; "jumping"]) ]%string.

(** [[col for col in attrs if col in df.columns]]. *)
Definition available_attrs (df : DataFrame) (attrs : list string) : list string :=
  filter (fun col => is_Some (num_cols df !! col)) attrs.

(** [df[available].mean(axis=1).values]: for each row, the mean of the
    cells of the selected columns. *)
Definition row_cells (df : DataFrame) (available : list string) (r : nat) : list Q :=
  omap (fun col => num_cols df !! col ≫= (fun c : list Q => c !! r)) available.

Definition mean_axis1 (df : DataFrame) (available : list string) : list Q :=
  map (fun r => np_mean (row_cells df available r)) (seq 0 (len_df df)).

(** One feature column per dimension. *)
Definition feature_column (df : DataFrame) (attrs : list string) : list Q :=
  match available_attrs df attrs with
  | [] => replicate (len_df df) 50
  | available => mean_axis1 df available
  end.

(** [np.array(feature_matrix).T]: row [r] collects cell [r] of every
    column. *)
Definition transpose (n : nat) (feature_matrix : list (list Q)) : list (list Q) :=
  map (fun r => omap (fun c : list Q => c !! r) feature_matrix) (seq 0 n).

Definition create_style_dimensions_batch (df : DataFrame) : list (list Q) :=
  let feature_matrix :=
    map (fun '(dimension, attrs) => feature_column df attrs) style_dims_batch in
  transpose (len_df df) feature_matrix.

(** The values a record holds for a candidate list, and how many candidates
    it lacks. *)
Definition present_values (attributes : gmap string Q) (attrs : list string) : list Q :=
  omap (fun a => attributes !! a) attrs.

Definition absent_count (attributes : gmap string Q) (attrs : list string) : nat :=
  length (filter (fun a => attributes !! a = None) attrs).

(** The single-record reducer as the specification words it, kept apart
    from [create_style_dimensions] to compare the two: average over the
    candidates present in the record, 50 when none is. *)
Definition reduce_present_only (attributes : gmap string Q) : list Q :=
  map (fun '(dimension, attrs) =>
         match present_values attributes attrs with
         | [] => 50
         | values => np_mean values
         end) style_dims.

(** The candidate names that only the batch reducer knows: the unprefixed
    alternates. *)
Definition alternate_names : list string :=
  concat (zip_with (fun single batch : string * list string =>
                      list_difference batch.2 single.2)
                   style_dims style_dims_batch).

(** A table aligned with the single reducer: no alternate name is a
    column, and the candidates of each dimension of the single reducer are
    columns all together or not at all. *)
Definition schema_aligned (df : DataFrame) : Prop :=
  Forall (fun c => num_cols df !! c = None) alternate_names
  /\ Forall (fun single : string * list string =>
               Forall (fun c => is_Some (num_cols df !! c)) single.2
               \/ Forall (fun c => num_cols df !! c = None) single.2)
            style_dims.

(** ** Exceptions

    A handler either returns, raises [HTTPException(status_code)], or
    raises some other exception. *)
Inductive outcome (A : Type) : Type :=
  | Return (a : A)
  | RaiseHTTP (status_code : nat)
  | Raise.
Arguments Return {A} a.
Arguments RaiseHTTP {A} status_code.
Arguments Raise {A}.

Global Instance outcome_ret : MRet outcome := fun A a => Return a.
Global Instance outcome_bind : MBind outcome := fun A B f m =>
  match m with
  | Return a => f a
  | RaiseHTTP c => RaiseHTTP c
  | Raise => Raise
  end.

(** [try: body / except HTTPException: raise / except Exception:
    raise HTTPException(status_code=500)]. *)
Definition except_500 {A : Type} (body : outcome A) : outcome A :=
  match body with
  | Raise => RaiseHTTP 500
  | other => other
  end.

(** A step that raises when a value is missing (KeyError, IndexError,
    FileNotFoundError). *)
Definition or_raise {A : Type} (o : option A) : outcome A :=
  match o with
  | Some a => Return a
  | None => Raise
  end.

Fixpoint for_each {A B : Type} (f : A -> outcome B) (l : list A) : outcome (list B) :=
  match l with
  | [] => Return []
  | a :: l' => b ← f a; bs ← for_each f l'; Return (b :: bs)
  end.

(** ** Loaded artifacts *)

(** The persisted [StandardScaler]: its [mean_] and [scale_] arrays. *)
Record StandardScaler := { mean_ : list Q; scale_ : list Q }.

(** [scaler.transform] on one row: [(x - mean_) / scale_], a [ValueError]
    when the row does not have the scaler's number of features.  The
    entries of [scale_] are not zero, as fitting leaves them. *)
Definition scaler_transform (scaler : StandardScaler) (x : list Q) : outcome (list Q) :=
  if decide (length x = length (mean_ scaler)
             /\ length x = length (scale_ scaler))
  then Return (zip_with Qdiv (zip_with Qminus x (mean_ scaler)) (scale_ scaler))
  else Raise.

(** The persisted [KMeans] model: its centroids. *)
Record KMeans := { cluster_centers_ : list (list Q) }.

(** The square of [np.linalg.norm(a - b)], for two vectors of the same
    length (numpy raises on vectors of different lengths; the handlers
    only subtract vectors that went through the same scaler).  The square
    root is monotone, so ordering by the squared norm is ordering by the
    norm. *)
Definition sq_norm_diff (a b : list Q) : Q :=
  np_sum (zip_with (fun x y => (x - y) * (x - y)) a b).

(** Index of the first minimum of a list, scanning left to right and
    replacing the best so far only by a strictly smaller value. *)
Fixpoint argmin_from (i best : nat) (best_d : Q) (ds : list Q) : nat :=
  match ds with
  | [] => best
  | d :: ds' =>
      if Qle_bool best_d d then argmin_from (S i) best best_d ds'
      else argmin_from (S i) i d ds'
  end.

Definition argmin (ds : list Q) : option nat :=
  match ds with
  | [] => None
  | d :: ds' => Some (argmin_from 1 0 d ds')
  end.

(** Modelled from the spec: [KMeans.predict] is scikit-learn code and not
    part of the repository sources.  Specification 4.3: the input vector is
    assigned the index of its nearest centroid under Euclidean distance,
    the lowest index on an exact tie. *)
Definition kmeans_predict (kmeans : KMeans) (x : list Q) : outcome nat :=
  or_raise (argmin (map (fun c => sq_norm_diff x c) (cluster_centers_ kmeans))).

(** The module-level globals set by [load_models]. *)
Record Globals := {
  scaler : StandardScaler;
  kmeans : KMeans;
  cluster_labels : gmap string string;
  player_data : DataFrame }.

(** The files read at startup; [None] is a file whose load raises (it
    does not exist, or cannot be read). *)
Record Disk := {
  scaler_pkl : option StandardScaler;
  kmeans_pkl : option KMeans;
  cluster_labels_json : option (gmap string string);
  FC26_csv : option DataFrame }.

(** [load_models]: four loads in sequence; an exception of a load is
    re-raised (startup fails).  Nothing compares the artifacts with each
    other. *)
Definition load_models (disk : Disk) : outcome Globals :=
  s ← or_raise (scaler_pkl disk);
  k ← or_raise (kmeans_pkl disk);
  l ← or_raise (cluster_labels_json disk);
  p ← or_raise (FC26_csv disk);
  Return {| scaler := s; kmeans := k; cluster_labels := l; player_data := p |}.

(** [str(cluster_id)]. *)
Definition py_str (n : nat) : string := pretty n.

(** [predict_cluster], on [attributes.dict()]. *)
Definition predict_cluster (g : Globals) (attributes : gmap string Q)
    : outcome (nat * string) :=
  except_500 (
    let features := create_style_dimensions attributes in
    features_scaled ← scaler_transform (scaler g) features;
    cluster_id ← kmeans_predict (kmeans g) features_scaled;
    style ← or_raise (cluster_labels g !! py_str cluster_id);
    Return (cluster_id, style)).

(** ** Name lookup *)

(** ASCII lower-casing, and plain case-insensitive substring search. *)
Definition lower (c : ascii) : ascii :=
  let n := Ascii.nat_of_ascii c in
  if (65 <=? n)%nat && (n <=? 90)%nat then Ascii.ascii_of_nat (n + 32) else c.

Fixpoint lower_string (s : string) : string :=
  match s with
  | EmptyString => EmptyString
  | String c s' => String (lower c) (lower_string s')
  end.

Fixpoint is_prefix (q s : string) : bool :=
  match q, s with
  | EmptyString, _ => true
  | String a q', String b s' => Ascii.eqb a b && is_prefix q' s'
  | String _ _, EmptyString => false
  end.

Fixpoint is_substring (q s : string) : bool :=
  is_prefix q s
  || match s with
     | EmptyString => false
     | String _ s' => is_substring q s'
     end.

Definition ci_contains (q s : string) : bool :=
  is_substring (lower_string q) (lower_string s).

(** The characters that are special in a Python regular expression. *)
Definition is_meta (c : ascii) : bool :=
  bool_decide (c ∈ list_ascii_of_string ".^$*+?{}[]\|()").

(** A query without special characters. *)
Definition plain (q : string) : Prop :=
  forallb (fun c => negb (is_meta c)) (list_ascii_of_string q) = true.

(** A small regular-expression engine, to run the model on examples:
    ordinary characters and [.] (any character but a newline), searched
    anywhere in the subject, ignoring ASCII case.  It refuses a pattern with
    any other special character, as Python's engine refuses a lone opening
    parenthesis. *)
Definition re_atom (c : ascii) : option (option ascii) :=
  if Ascii.eqb c "."%char then Some None
  else if is_meta c then None
  else Some (Some (lower c)).

Fixpoint match_here (pat : list (option ascii)) (s : string) : bool :=
  match pat, s with
  | [], _ => true
  | _ :: _, EmptyString => false
  | None :: pat', String c s' =>
      negb (Ascii.eqb c "010"%char) && match_here pat' s'
  | Some a :: pat', String c s' => Ascii.eqb a (lower c) && match_here pat' s'
  end.

Fixpoint search_anywhere (pat : list (option ascii)) (s : string) : bool :=
  match_here pat s
  || match s with
     | EmptyString => false
     | String _ s' => search_anywhere pat s'
     end.

Definition re_small (pat : string) : option (string -> bool) :=
  search_anywhere <$> mapM re_atom (list_ascii_of_string pat).

Definition name_columns : list string :=
  ["short_name"; "name"; "long_name"; "player_name"]%string.

Record SimilarPlayerRequest := { player_name : string; top_n : Z }.

(** [np.argsort(distances)]: the indices in ascending order of distance, by
    insertion of (distance, index) pairs.  Indices of equal distances stay
    in index order here; numpy leaves their order unspecified. *)
Fixpoint insert_sorted (x : Q * nat) (l : list (Q * nat)) : list (Q * nat) :=
  match l with
  | [] => [x]
  | y :: l' => if Qle_bool x.1 y.1 then x :: l else y :: insert_sorted x l'
  end.

Definition np_argsort (a : list Q) : list nat :=
  map snd (foldr insert_sorted [] (zip a (seq 0 (length a)))).

(** The order of [np_argsort] on (distance, index) pairs. *)
Definition pair_le (x y : Q * nat) : Prop := x.1 <= y.1.

(** The slice [l[start:stop]] with Python's treatment of negative and
    out-of-range bounds. *)
Definition py_slice {A : Type} (start stop : Z) (l : list A) : list A :=
  let n := Z.of_nat (length l) in
  let clip i := if (i <? 0)%Z then Z.max 0 (i + n) else Z.min i n in
  take (Z.to_nat (clip stop - clip start)) (drop (Z.to_nat (clip start)) l).

(** ASCII text: every byte is below 128. *)
Definition ascii_only (s : string) : bool :=
  forallb (fun c => (Ascii.nat_of_ascii c <? 128)%nat) (list_ascii_of_string s).

(** Whether a name column is of string dtype.  A name column holds strings
    and missing values; read from the CSV file, a column with rows and not
    one string in them (every cell empty) is of dtype [float64], and the
    [.str] accessor raises [AttributeError] on it; the columns of a table
    without rows are of dtype [object]. *)
Definition str_dtype (series : list (option string)) : bool :=
  match series with
  | [] => true
  | _ :: _ => existsb (fun cell : option string => bool_decide (is_Some cell)) series
  end.

Section NameLookup.
(** [re.compile(pat, flags=re.IGNORECASE)]: [None] when the pattern is
    not a valid regular expression ([re.error]), otherwise the predicate
    [regex.search(x) is not None].  The engine is Python's. *)
Variable re_compile_ignorecase : string -> option (string -> bool).

(** [series.str.contains(pat, case=False, na=False)]: [.str] raises on a
    column that is not of string dtype; the pattern is a regular
    expression (pandas' default [regex=True]), compiled before any cell is
    searched. *)
Definition str_contains (pat : string) (series : list (option string))
    : outcome (list bool) :=
  if str_dtype series then
    search ← or_raise (re_compile_ignorecase pat);
    Return (map (fun cell => match cell with
                             | Some s => search s
                             | None => false
                             end) series)
  else Raise.

(** [mask.any()]. *)
Definition mask_any (mask : list bool) : bool := existsb (fun b => b) mask.

(** The [for name_col in name_columns] loop, from a given state of
    [player_mask]; it yields [(player_mask, name_col_used)]. *)
Fixpoint name_loop (df : DataFrame) (pat : string) (cols : list string)
    (player_mask : option (list bool))
    : outcome (option (list bool) * option string) :=
  match cols with
  | [] => Return (player_mask, None)
  | name_col :: rest =>
      match text_cols df !! name_col with
      | Some series =>
          mask ← str_contains pat series;
          if mask_any mask then Return (Some mask, Some name_col)
          else name_loop df pat rest (Some mask)
      | None => name_loop df pat rest player_mask
      end
  end.

(** The lookup of both handlers: the column used and the position of the
    first matching row ([player_data[player_mask].iloc[0]]), or 404. *)
Definition find_player (df : DataFrame) (pat : string) : outcome (string * nat) :=
  '(player_mask, name_col_used) ← name_loop df pat name_columns None;
  match player_mask with
  | None => RaiseHTTP 404
  | Some mask =>
      if negb (mask_any mask) then RaiseHTTP 404
      else
        row ← or_raise (list_find (fun b : bool => b = true) mask);
        col ← or_raise name_col_used;
        Return (col, row.1)
  end.

(** The distances of [find_similar_players] for the matched row: the
    row reduced as a single record, the whole table reduced in batch,
    both scaled, one (squared) norm of the difference per table row. *)
Definition distances_from (g : Globals) (row : nat) : outcome (list Q) :=
  let player_features := create_style_dimensions (to_dict (player_data g) row) in
  player_scaled ← scaler_transform (scaler g) player_features;
  let all_features := create_style_dimensions_batch (player_data g) in
  all_scaled ← for_each (scaler_transform (scaler g)) all_features;
  Return (map (fun x => sq_norm_diff x player_scaled) all_scaled).

(** [similar_indices = np.argsort(distances)[1:request.top_n + 1]]. *)
Definition similar_indices (g : Globals) (row : nat) (top_n : Z) : outcome (list nat) :=
  distances ← distances_from g row;
  Return (py_slice 1 (top_n + 1) (np_argsort distances)).

(** [player_data.iloc[similar_indices][name_col_used].tolist()]. *)
Definition names_at (df : DataFrame) (col : string) (indices : list nat)
    : outcome (list (option string)) :=
  series ← or_raise (text_cols df !! col);
  for_each (fun i => or_raise (series !! i)) indices.

(** [SimilarPlayerResponse(similar_players=similar_names)]: the field is a
    [List[str]], and a missing name (NaN) fails its validation. *)
Definition SimilarPlayerResponse (similar_names : list (option string))
    : outcome (list string) :=
  for_each or_raise similar_names.

Definition find_similar_players (g : Globals) (request : SimilarPlayerRequest)
    : outcome (list string) :=
  except_500 (
    '(name_col_used, row) ← find_player (player_data g) (player_name request);
    indices ← similar_indices g row (top_n request);
    similar_names ← names_at (player_data g) name_col_used indices;
    SimilarPlayerResponse similar_names).
End NameLookup.

(** ** Request validation *)

(** The JSON body of a similar-players request: each field may be left
    out. *)
Record SimilarPlayerBody := {
  body_player_name : option string;
  body_top_n : option Z }.

(** [player_name: str = Field(..., min_length=1)] and
    [top_n: int = Field(default=5, ge=1, le=20)]. *)
Definition valid_player_name (name : string) : bool :=
  (1 <=? String.length name)%nat.

Definition valid_top_n (n : Z) : bool := ((1 <=? n) && (n <=? 20))%Z.

Definition validate_request (body : SimilarPlayerBody) : option SimilarPlayerRequest :=
  name ← body_player_name body;
  let n := default 5%Z (body_top_n body) in
  if valid_player_name name && valid_top_n n
  then Some {| player_name := name; top_n := n |}
  else None.

(** The route [POST /similar_players]: the body is validated first, and a
    body that fails validation is answered 422 without calling the
    handler. *)
Definition similar_players_route
    (re_compile_ignorecase : string -> option (string -> bool))
    (g : Globals) (body : SimilarPlayerBody) : outcome (list string) :=
  match validate_request body with
  | None => RaiseHTTP 422
  | Some request => find_similar_players re_compile_ignorecase g request
  end.

(** ** The lookup as the specification words it

    Kept apart from [find_player] to compare the two: case-insensitive
    substring matching, column by column. *)
Definition cell_contains (q : string) (cell : option string) : bool :=
  match cell with
  | Some s => ci_contains q s
  | None => false
  end.

(** Column [c] exists and row [i] is its first cell containing [q]. *)
Definition column_matches (df : DataFrame) (q c : string) (i : nat) : Prop :=
  exists series,
    text_cols df !! c = Some series
    /\ (exists cell, series !! i = Some cell /\ cell_contains q cell = true)
    /\ (forall j cell, (j < i)%nat -> series !! j = Some cell ->
                       cell_contains q cell = false).

(** Column [c] is absent, or it is a column of strings and none of its
    cells contains [q]. *)
Definition column_silent (df : DataFrame) (q c : string) : Prop :=
  forall series, text_cols df !! c = Some series ->
    str_dtype series = true
    /\ Forall (fun cell => cell_contains q cell = false) series.

(** Column [c] exists and is not a column of strings: it has rows, and
    every cell of it is empty. *)
Definition column_unreadable (df : DataFrame) (c : string) : Prop :=
  exists series, text_cols df !! c = Some series /\ str_dtype series = false.

(** Every name held by the name columns of the table is ASCII text. *)
Definition ascii_cell (cell : option string) : bool :=
  match cell with
  | Some s => ascii_only s
  | None => true
  end.

Definition ascii_names (df : DataFrame) : Prop :=
  Forall (fun c => forall series, text_cols df !! c = Some series ->
                                  forallb ascii_cell series = true)
         name_columns.

(** The first column of [cols], in order, with a cell containing [q], and
    the position of its first such cell. *)
Fixpoint lookup_by_substring (df : DataFrame) (q : string) (cols : list string)
    : option (string * nat) :=
  match cols with
  | [] => None
  | c :: rest =>
      match text_cols df !! c with
      | Some series =>
          match list_find (fun cell => cell_contains q cell = true) series with
          | Some (i, _) => Some (c, i)
          | None => lookup_by_substring df q rest
          end
      | None => lookup_by_substring df q rest
      end
  end.

(** What Python's engine does with an ASCII query free of special
    characters: the pattern compiles, and searching an ASCII subject is
    case-insensitive substring search.  (On other text [re.IGNORECASE]
    also folds letters outside ASCII, which [ci_contains] does not.) *)
Definition literal_on_plain (re : string -> option (string -> bool)) : Prop :=
  forall p, plain p -> ascii_only p = true ->
    exists search,
      re p = Some search
      /\ forall s, ascii_only s = true -> search s = ci_contains p s.

(** A state of [player_mask] in which no row is selected. *)
Definition quiet (player_mask : option (list bool)) : Prop :=
  forall mask, player_mask = Some mask -> mask_any mask = false.

(** ** The distance as the specification words it

    Specification 4.5: the Euclidean (L2) norm in the 6-dimensional
    standardized space, standardizing being (value - mean) / scale in each
    coordinate (4.2).  Written coordinate by coordinate, apart from
    [scaler_transform] and [sq_norm_diff], to compare them. *)
Definition standardized_at (s : StandardScaler) (v : list Q) (j : nat) : Q :=
  (nth j v 0 - nth j (mean_ s) 0) / nth j (scale_ s) 0.

Definition euclidean_sq (s : StandardScaler) (x y : list Q) : Q :=
  fold_right Qplus 0
    (map (fun j => (standardized_at s x j - standardized_at s y j)
                   * (standardized_at s x j - standardized_at s y j))
         (seq 0 6)).

Definition euclidean_distance (s : StandardScaler) (x y : list Q) : R :=
  sqrt (Q2R (euclidean_sq s x y)).

(** ** Fitting the scaler *)

(** Modelled from the spec: [StandardScaler.fit] and [fit_transform], called
    by [PlayerStyleTrainer.train], are scikit-learn code and not part of the
    repository sources.  Specification 4.2: the output is (input - column
    mean) / column standard deviation, the columns being independent, and a
    column of zero variance is given the scale 1.  The standard deviation
    is a square root, so this part is over the real numbers; a matrix is
    given by its columns. *)
Module ScalerFit.
Local Open Scope R_scope.

Definition col_sum (col : list R) : R := fold_right Rplus 0 col.

Definition col_mean (col : list R) : R := col_sum col / INR (length col).

Definition col_var (col : list R) : R :=
  col_mean (map (fun x => (x - col_mean col) * (x - col_mean col)) col).

Definition col_std (col : list R) : R := sqrt (col_var col).

Definition fit_scale (col : list R) : R :=
  if Req_dec_T (col_std col) 0 then 1 else col_std col.

Record state := { means : list R; scales : list R }.

Definition fit (M : list (list R)) : state :=
  {| means := map col_mean M; scales := map fit_scale M |}.

Definition transform_col (mu s : R) (col : list R) : list R :=
  map (fun x => (x - mu) / s) col.

Definition transform (st : state) (M : list (list R)) : list (list R) :=
  zip_with (fun ms col => transform_col ms.1 ms.2 col)
           (zip (means st) (scales st)) M.
End ScalerFit.

(** ** Sample inputs *)

Definition record_C9 : gmap string Q :=
  <["skill_dribbling"%string := 90]>
  (<["skill_ball_control"%string := 85]>
  (<["movement_agility"%string := 80]>
  (<["movement_balance"%string := 75]> ∅))).

Definition record_dribbling_only : gmap string Q :=
  {[ "skill_dribbling"%string := 90 ]}.

Definition df_one_column : DataFrame :=
  {| len_df := 1; text_cols := ∅;
     num_cols := {[ "movement_acceleration"%string := [90] ]} |}.

(** Two players with both pace attributes and nothing else. *)
Definition df_pace : DataFrame :=
  {| len_df := 2;
     text_cols := {[ "short_name"%string := [Some "A"%string; Some "B"%string] ]};
     num_cols := <["movement_acceleration"%string := [90; 70]]>
                 {[ "movement_sprint_speed"%string := [80; 60] ]} |}.

Definition scaler_identity : StandardScaler :=
  {| mean_ := replicate 6 0; scale_ := replicate 6 1 |}.

Definition kmeans_two : KMeans :=
  {| cluster_centers_ := [replicate 6 0; replicate 6 50] |}.

(** A dataset in the unprefixed naming that the batch reducer accepts. *)
Definition df_unprefixed : DataFrame :=
  {| len_df := 2;
     text_cols := {[ "short_name"%string := [Some "Ada"%string; Some "Bo"%string] ]};
     num_cols := {[ "acceleration"%string := [90; 50] ]} |}.

Definition globals_unprefixed : Globals :=
  {| scaler := scaler_identity; kmeans := kmeans_two;
     cluster_labels := ∅; player_data := df_unprefixed |}.

Definition labels_five : gmap string string :=
  list_to_map [("0", "Creative Playmaker"); ("1", "Ball Winning Midfielder");
               ("2", "Explosive Winger"); ("3", "Target Man");
               ("4", "Defensive Center Back")]%string.

(** Six centroids; the sixth is the all-50 vector. *)
Definition kmeans_six : KMeans :=
  {| cluster_centers_ :=
       [replicate 6 0; replicate 6 10; replicate 6 20; replicate 6 30;
        replicate 6 40; replicate 6 50] |}.

Definition disk_mismatch : Disk :=
  {| scaler_pkl := Some scaler_identity; kmeans_pkl := Some kmeans_six;
     cluster_labels_json := Some labels_five; FC26_csv := Some df_pace |}.

(** Three players whose scaled vectors are (0,..,0), (1,0,..,0) and
    (0,..,0,5) once shifted by 50. *)
Definition df_three : DataFrame :=
  {| len_df := 3;
     text_cols := {[ "short_name"%string :=
                       [Some "A"%string; Some "B"%string; Some "C"%string] ]};
     num_cols :=
       list_to_map
         (("movement_acceleration"%string, [50; 51; 50])
          :: ("power_strength"%string, [50; 50; 55])
          :: map (fun c => (c, [50; 50; 50]))
               ["movement_sprint_speed"; "skill_dribbling"; "skill_ball_control";
                "movement_agility"; "movement_balance";
                "attacking_short_passing"; "skill_long_passing";
                "mentality_vision"; "skill_curve"; "attacking_finishing";
                "power_shot_power"; "mentality_positioning";
                "mentality_interceptions"; "defending_standing_tackle";
                "defending_sliding_tackle"; "mentality_aggression";
                "power_stamina"; "power_jumping"]%string) |}.

Definition scaler_three : StandardScaler :=
  {| mean_ := replicate 6 50; scale_ := [1 # 2; 1; 1; 1; 1; 1 # 3] |}.

Definition globals_three : Globals :=
  {| scaler := scaler_three; kmeans := kmeans_two;
     cluster_labels := ∅; player_data := df_three |}.

(** Two players found only through their long names. *)
Definition df_names : DataFrame :=
  {| len_df := 2;
     text_cols :=
       <["short_name"%string := [Some "L. Messi"%string; Some "K. Mbappe"%string]]>
       {[ "long_name"%string :=
            [Some "Lionel Andres Messi"%string; Some "Kylian Mbappe Lottin"%string] ]};
     num_cols := ∅ |}.

Definition globals_names : Globals :=
  {| scaler := scaler_identity; kmeans := kmeans_two;
     cluster_labels := ∅; player_data := df_names |}.

(** Centroids 1 and 2 are at the same distance from the all-25 vector. *)
Definition kmeans_tie : KMeans :=
  {| cluster_centers_ := [replicate 6 100; replicate 6 0; replicate 6 50] |}.

(** A training matrix, given by its columns: one spread column, one
    constant column. *)
Definition matrix_constant_column : list (list R) :=
  [[0; 2]; [5; 5]]%R.

(** Two distinct players with the same attributes. *)
Definition df_duplicates : DataFrame :=
  {| len_df := 2;
     text_cols := {[ "short_name"%string := [Some "Ada"%string; Some "Bo"%string] ]};
     num_cols := <["movement_acceleration"%string := [80; 80]]>
                 {[ "movement_sprint_speed"%string := [70; 70] ]} |}.

Definition globals_duplicates : Globals :=
  {| scaler := scaler_identity; kmeans := kmeans_two;
     cluster_labels := ∅; player_data := df_duplicates |}.


(** * The rest of the service *)

(** ** The request model of [POST /cluster] *)

(** The fields of [PlayerAttributes], in declaration order. *)
Definition attribute_fields : list string :=
  [ "movement_acceleration"; "movement_sprint_speed"; "skill_dribbling";
    "skill_ball_control"; "movement_agility"; "movement_balance";
    "attacking_short_passing"; "skill_long_passing"; "mentality_vision";
    "skill_curve"; "attacking_finishing"; "power_shot_power";
    "mentality_positioning"; "mentality_interceptions";
    "defending_standing_tackle"; "defending_sliding_tackle";
    "mentality_aggression"; "power_strength"; "power_stamina";
    "power_jumping" ]%string.

(** [Field(default=50, ge=0, le=100)]. *)
Definition field_value (body : gmap string Q) (field : string) : Q :=
  default 50 (body !! field).

Definition ge_0_le_100 (v : Q) : bool := Qle_bool 0 v && Qle_bool v 100.

(** Validation of a JSON body against [PlayerAttributes], then
    [attributes.dict()]: every declared field, given or defaulted; keys of
    the body that are not fields are ignored. *)
Definition PlayerAttributes_dict (body : gmap string Q) : option (gmap string Q) :=
  if forallb (fun field => ge_0_le_100 (field_value body field)) attribute_fields
  then Some (list_to_map (map (fun field => (field, field_value body field))
                              attribute_fields))
  else None.

(** The route [POST /cluster]. *)
Definition cluster_route (g : Globals) (body : gmap string Q) : outcome (nat * string) :=
  match PlayerAttributes_dict body with
  | None => RaiseHTTP 422
  | Some attributes => predict_cluster g attributes
  end.

(** ** [GET /player/{player_name}] *)

(** [int(x)] on a number: truncation toward zero. *)
Definition py_int (q : Q) : Z := Z.quot (Qnum q) (Z.pos (Qden q)).

Record PlayerProfile := {
  profile_name : option string;
  profile_age : option Z;
  profile_overall : option Z;
  profile_positions : option (option string);
  profile_cluster_id : nat;
  profile_style : string }.

(** [int(player[col]) if col in player else None]. *)
Definition int_if_present (df : DataFrame) (col : string) (row : nat)
    : outcome (option Z) :=
  match num_cols df !! col with
  | Some cells => v ← or_raise (cells !! row); Return (Some (py_int v))
  | None => Return None
  end.

(** [player[col] if col in player else otherwise]. *)
Definition text_if_present (df : DataFrame) (col : string) (row : nat)
    (otherwise : outcome (option (option string)))
    : outcome (option (option string)) :=
  match text_cols df !! col with
  | Some cells => v ← or_raise (cells !! row); Return (Some v)
  | None => otherwise
  end.

Definition get_player_profile
    (re_compile_ignorecase : string -> option (string -> bool))
    (g : Globals) (player_name : string) : outcome PlayerProfile :=
  except_500 (
    '(name_col_used, row) ←
      find_player re_compile_ignorecase (player_data g) player_name;
    let features := create_style_dimensions (to_dict (player_data g) row) in
    features_scaled ← scaler_transform (scaler g) features;
    cluster_id ← kmeans_predict (kmeans g) features_scaled;
    names ← or_raise (text_cols (player_data g) !! name_col_used);
    name ← or_raise (names !! row);
    age ← int_if_present (player_data g) "age" row;
    overall ← int_if_present (player_data g) "overall" row;
    positions ← text_if_present (player_data g) "player_positions" row
                  (text_if_present (player_data g) "positions" row (Return None));
    style ← or_raise (cluster_labels g !! py_str cluster_id);
    Return {| profile_name := name; profile_age := age;
              profile_overall := overall; profile_positions := positions;
              profile_cluster_id := cluster_id; profile_style := style |}).

(** ** The module globals and [GET /health], [GET /clusters] *)

(** The four globals of [api.py]; each is [None] until [load_models]
    assigns it. *)
Record ModuleState := {
  st_scaler : option StandardScaler;
  st_kmeans : option KMeans;
  st_cluster_labels : option (gmap string string);
  st_player_data : option DataFrame }.

Definition initial_state : ModuleState :=
  {| st_scaler := None; st_kmeans := None;
     st_cluster_labels := None; st_player_data := None |}.

(** [load_models] as it acts on the globals: each load assigns its global
    as soon as it succeeds; the first missing file raises and leaves the
    later globals as they were. *)
Definition load_models_into (disk : Disk) (st : ModuleState) : ModuleState * outcome unit :=
  match scaler_pkl disk with
  | None => (st, Raise)
  | Some s =>
      let st1 := {| st_scaler := Some s; st_kmeans := st_kmeans st;
                    st_cluster_labels := st_cluster_labels st;
                    st_player_data := st_player_data st |} in
      match kmeans_pkl disk with
      | None => (st1, Raise)
      | Some k =>
          let st2 := {| st_scaler := Some s; st_kmeans := Some k;
                        st_cluster_labels := st_cluster_labels st;
                        st_player_data := st_player_data st |} in
          match cluster_labels_json disk with
          | None => (st2, Raise)
          | Some l =>
              let st3 := {| st_scaler := Some s; st_kmeans := Some k;
                            st_cluster_labels := Some l;
                            st_player_data := st_player_data st |} in
              match FC26_csv disk with
              | None => (st3, Raise)
              | Some p =>
                  ({| st_scaler := Some s; st_kmeans := Some k;
                      st_cluster_labels := Some l; st_player_data := Some p |},
                   Return tt)
              end
          end
      end
  end.

Record Health := {
  status : string;
  models_loaded : bool;
  total_players : nat }.

Definition health_check (st : ModuleState) : Health :=
  {| status := "ok";
     models_loaded := bool_decide (is_Some (st_scaler st))
                      && bool_decide (is_Some (st_kmeans st));
     total_players := match st_player_data st with
                      | Some df => len_df df
                      | None => 0%nat
                      end |}.

(** [get_clusters] returns the global as it is. *)
Definition get_clusters (st : ModuleState) : option (gmap string string) :=
  st_cluster_labels st.

(** ** The trainer ([train_model.py]) *)

Definition STYLE_DIMENSIONS : list (string * list string) :=
  [ ("pace", ["movement_acceleration"; "movement_sprint_speed";
              "acceleration"; "sprint_speed"]);
    ("dribbling", ["skill_dribbling"; "skill_ball_control";
                   "movement_agility"; "movement_balance";
                   "dribbling"; "ball_control"; "agility"; "balance"]);
    ("creativity", ["attacking_short_passing"; "skill_long_passing";
                    "mentality_vision"; "skill_curve";
                    "short_passing"; "long_passing"; "vision"; "curve"]);
    ("finishing", ["attacking_finishing"; "power_shot_power";
                   "mentality_positioning";
                   "finishing"; "shot_power"; "positioning"]);
    ("defense", ["mentality_interceptions"; "defending_standing_tackle";
                 "defending_sliding_tackle"; "mentality_aggression";
                 "interceptions"; "standing_tackle"; "sliding_tackle";
                 "aggression"]);
    ("physicality", ["power_strength"; "power_stamina"; "power_jumping";
                     "strength"; "stamina"; "jumping"]) ]%string.

(** The dict [CLUSTER_LABELS], keyed by cluster number. *)
Definition CLUSTER_LABELS : gmap nat string :=
  list_to_map
    [ (0%nat, "Creative Playmaker"); (1%nat, "Ball Winning Midfielder");
      (2%nat, "Explosive Winger"); (3%nat, "Target Man");
      (4%nat, "Defensive Center Back"); (5%nat, "Box-to-Box Midfielder") ]%string.

(** What [json.load] reads back after [json.dump] of a dict with integer
    keys: the keys have become their decimal strings. *)
Definition json_int_keys (d : gmap nat string) : gmap string string :=
  kmap py_str d.

(** The state of a [PlayerStyleTrainer]. *)
Module PlayerStyleTrainer.
Record t := {
  data_path : string;
  n_clusters : nat;
  scaler : StandardScaler;
  kmeans : KMeans;
  feature_columns : list string }.
End PlayerStyleTrainer.

(** The content of [feature_info.json]. *)
Record FeatureInfo := {
  info_feature_columns : list string;
  info_style_dimensions : list (string * list string) }.

(** The files of the working directory: those [api.py] reads, and
    [models/feature_info.json]. *)
Record WorkingDir := {
  served : Disk;
  feature_info_json : option FeatureInfo }.

(** [save_artifacts()], with its default output directory [models]: the
    four files are written, whatever was there; [FC26.csv] is not touched. *)
Definition save_artifacts (self : PlayerStyleTrainer.t) (dir : WorkingDir) : WorkingDir :=
  {| served :=
       {| scaler_pkl := Some (PlayerStyleTrainer.scaler self);
          kmeans_pkl := Some (PlayerStyleTrainer.kmeans self);
          cluster_labels_json := Some (json_int_keys CLUSTER_LABELS);
          FC26_csv := FC26_csv (served dir) |};
     feature_info_json :=
       Some {| info_feature_columns := PlayerStyleTrainer.feature_columns self;
               info_style_dimensions := STYLE_DIMENSIONS |} |}.

(** [series.mean()] of a selection: NaN, here [None], when it is empty. *)
Definition series_mean (values : list Q) : option Q :=
  match values with
  | [] => None
  | _ => Some (np_mean values)
  end.

(** [column[cluster_mask]]: the cells of the rows whose mask is set. *)
Fixpoint select {A : Type} (mask : list bool) (column : list A) : list A :=
  match mask, column with
  | b :: mask', x :: column' =>
      if b then x :: select mask' column' else select mask' column'
  | _, _ => []
  end.

(** One entry of the dict built by [_calculate_cluster_stats]. *)
Record ClusterStats := {
  stats_count : nat;
  stats_avg_overall : option (option Q);
  stats_style_profile : list (string * option Q);
  stats_label : string;
  stats_sample_players : list (option string) }.

(** [self.CLUSTER_LABELS.get(cluster_id, f"Cluster {cluster_id}")]. *)
Definition label_or_default (cluster_id : nat) : string :=
  default ("Cluster " ++ py_str cluster_id)%string (CLUSTER_LABELS !! cluster_id).

(** [_calculate_cluster_stats], for a data frame whose [cluster] column is
    [labels_] and the engineered [features], given by their columns. *)
Definition cluster_stats_entry (df : DataFrame) (labels_ : list nat)
    (features : list (string * list Q)) (cluster_id : nat) : ClusterStats :=
  let cluster_mask := map (fun c => bool_decide (c = cluster_id)) labels_ in
  let sample_players :=
    match text_cols df !! "short_name"%string with
    | Some names => take 5 (select cluster_mask names)
    | None =>
        match text_cols df !! "name"%string with
        | Some names => take 5 (select cluster_mask names)
        | None => []
        end
    end in
  {| stats_count := length (filter (fun b : bool => b = true) cluster_mask);
     stats_avg_overall :=
       match num_cols df !! "overall"%string with
       | Some overall => Some (series_mean (select cluster_mask overall))
       | None => None
       end;
     stats_style_profile :=
       map (fun '(dimension, column) =>
              (dimension, series_mean (select cluster_mask column))) features;
     stats_label := label_or_default cluster_id;
     stats_sample_players := sample_players |}.

Definition _calculate_cluster_stats (n_clusters : nat) (df : DataFrame)
    (labels_ : list nat) (features : list (string * list Q))
    : list (nat * ClusterStats) :=
  map (fun cluster_id => (cluster_id, cluster_stats_entry df labels_ features cluster_id))
      (seq 0 n_clusters).

(** ** The exploration script ([explore_data.py]) *)

Definition required_attributes : list (string * list string) :=
  [ ("Pace", ["movement_acceleration"; "movement_sprint_speed";
              "acceleration"; "sprint_speed"; "pace"]);
    ("Dribbling", ["skill_dribbling"; "skill_ball_control";
                   "movement_agility"; "movement_balance";
                   "dribbling"; "ball_control"; "agility"; "balance"]);
    ("Creativity", ["attacking_short_passing"; "skill_long_passing";
                    "mentality_vision"; "skill_curve";
                    "short_passing"; "long_passing"; "vision"; "curve"]);
    ("Finishing", ["attacking_finishing"; "power_shot_power";
                   "mentality_positioning";
                   "finishing"; "shot_power"; "positioning"]);
    ("Defense", ["mentality_interceptions"; "defending_standing_tackle";
                 "defending_sliding_tackle"; "mentality_aggression";
                 "interceptions"; "standing_tackle"; "sliding_tackle";
                 "aggression"; "defensive_awareness"]);
    ("Physicality", ["power_strength"; "power_stamina"; "power_jumping";
                     "strength"; "stamina"; "jumping"]) ]%string.

(** The loop of [explore_dataset] over [required_attributes]: the
    dimensions with a column, with the columns found, and the dimensions
    without one. *)
Fixpoint explore_loop (df : DataFrame) (required : list (string * list string))
    : list (string * list string) * list string :=
  match required with
  | [] => ([], [])
  | (dimension, possible_cols) :: rest =>
      let '(found_mapping, missing_dimensions) := explore_loop df rest in
      match filter (fun col => is_Some (num_cols df !! col)) possible_cols with
      | [] => (found_mapping, dimension :: missing_dimensions)
      | found => ((dimension, found) :: found_mapping, missing_dimensions)
      end
  end.

(** [explore_dataset]: nothing when the file is missing, else the data
    frame and [found_mapping]. *)
Definition explore_dataset (csv : option DataFrame)
    : option (DataFrame * list (string * list string)) :=
  df ← csv; Some (df, (explore_loop df required_attributes).1).

(** ** The lookup for any compiled pattern *)

(** [regex.search(cell) is not None], a missing cell counting as no
    match ([na=False]). *)
Definition cell_search (search : string -> bool) (cell : option string) : bool :=
  match cell with
  | Some s => search s
  | None => false
  end.

(** What the scan of the name columns comes to: a column and the position
    of its first matching cell, no match in any column, or a column that
    is not of string dtype met before any match. *)
Inductive lookup_result :=
  | Found (c : string) (i : nat)
  | NotFound
  | NotStrings (c : string).

Fixpoint lookup_first (search : string -> bool) (df : DataFrame) (cols : list string)
    : lookup_result :=
  match cols with
  | [] => NotFound
  | c :: rest =>
      match text_cols df !! c with
      | Some series =>
          if str_dtype series then
            match list_find (fun cell => cell_search search cell = true) series with
            | Some (i, _) => Found c i
            | None => lookup_first search df rest
            end
          else NotStrings c
      | None => lookup_first search df rest
      end
  end.

(** Column [c] exists and row [i] is its first cell that [search]
    matches. *)
Definition col_matches (search : string -> bool) (df : DataFrame) (c : string)
    (i : nat) : Prop :=
  exists series,
    text_cols df !! c = Some series
    /\ (exists cell, series !! i = Some cell /\ cell_search search cell = true)
    /\ (forall j cell, (j < i)%nat -> series !! j = Some cell ->
                       cell_search search cell = false).

(** Column [c] is absent, or it is a column of strings none of which
    [search] matches. *)
Definition col_silent (search : string -> bool) (df : DataFrame) (c : string) : Prop :=
  forall series, text_cols df !! c = Some series ->
    str_dtype series = true
    /\ Forall (fun cell => cell_search search cell = false) series.

(** No name is missing in the name columns of the table. *)
Definition names_complete (df : DataFrame) : Prop :=
  Forall (fun c => forall series, text_cols df !! c = Some series ->
                                  Forall is_Some series)
         name_columns.

(** An outcome that is not an [HTTPException]. *)
Definition no_http {A : Type} (o : outcome A) : Prop :=
  forall status_code, o <> RaiseHTTP status_code.

(** ** Sample inputs for the rest of the service *)

Definition body_two_fields : gmap string Q :=
  <["movement_acceleration"%string := 90]>
  {[ "power_strength"%string := 20 ]}.

Definition labels_six : gmap string string := json_int_keys CLUSTER_LABELS.

Definition globals_six : Globals :=
  {| scaler := scaler_identity; kmeans := kmeans_six;
     cluster_labels := labels_six; player_data := df_three |}.

Definition trainer_six : PlayerStyleTrainer.t :=
  {| PlayerStyleTrainer.data_path := "FC26.csv";
     PlayerStyleTrainer.n_clusters := 6;
     PlayerStyleTrainer.scaler := scaler_three;
     PlayerStyleTrainer.kmeans := kmeans_six;
     PlayerStyleTrainer.feature_columns :=
       ["pace"; "dribbling"; "creativity"; "finishing"; "defense";
        "physicality"]%string |}.

Definition dir_with_csv : WorkingDir :=
  {| served := {| scaler_pkl := None; kmeans_pkl := None;
                  cluster_labels_json := None; FC26_csv := Some df_three |};
     feature_info_json := None |}.

(** The three-player table with age, overall and positions. *)
Definition df_profile : DataFrame :=
  {| len_df := 2;
     text_cols := <["short_name"%string := [Some "Ada"%string; Some "Bo"%string]]>
                  {[ "positions"%string := [Some "ST"%string; None] ]};
     num_cols := <["age"%string := [(61 # 2); 31]]>
                 {[ "movement_acceleration"%string := [80; 60] ]} |}.

Definition globals_profile : Globals :=
  {| scaler := scaler_identity; kmeans := kmeans_six;
     cluster_labels := labels_six; player_data := df_profile |}.

(** A table whose only attribute column is the summary column [pace]. *)
Definition df_pace_summary : DataFrame :=
  {| len_df := 1; text_cols := ∅;
     num_cols := {[ "pace"%string := [88] ]} |}.

(** A table whose [short_name] column is empty in every row: the names are
    in [long_name]. *)
Definition df_no_short_names : DataFrame :=
  {| len_df := 2;
     text_cols :=
       <["short_name"%string := [None; None]]>
       {[ "long_name"%string :=
            [Some "Lionel Andres Messi"%string; Some "Kylian Mbappe Lottin"%string] ]};
     num_cols := ∅ |}.

Definition disk_six : Disk :=
  {| scaler_pkl := Some scaler_identity; kmeans_pkl := Some kmeans_six;
     cluster_labels_json := Some labels_six; FC26_csv := Some df_three |}.

(** * Theorems *)

(** ** Sequencing, scaling and the scan of the name columns *)

Lemma for_each_Return {A B : Type} (f : A -> outcome B) (l : list A) :
  Forall (fun a => exists b, f a = Return b) l ->
  exists bs, for_each f l = Return bs.
Proof.
  induction 1 as [|a l [b Hb] _ [bs IH]]; [by exists []|].
  exists (b :: bs). simpl. by rewrite Hb, IH.
Qed.

Lemma for_each_lookup {A B : Type} (f : A -> outcome B) (l : list A)
    (bs : list B) (i : nat) (a : A) :
  for_each f l = Return bs -> l !! i = Some a ->
  exists b, f a = Return b /\ bs !! i = Some b.
Proof.
  revert bs i. induction l as [|a0 l IH]; intros bs i; [done|].
  simpl. destruct (f a0) as [b0| |] eqn:Hb0; simpl; try done.
  destruct (for_each f l) as [bs'| |] eqn:Hbs; simpl; try done.
  intros [= <-]. destruct i as [|i]; simpl.
  - intros [= <-]. eauto.
  - by apply IH.
Qed.

Lemma for_each_app {A B : Type} (f : A -> outcome B) (l1 l2 : list A) (bs : list B) :
  for_each f (l1 ++ l2) = Return bs ->
  exists bs1 bs2, for_each f l1 = Return bs1 /\ bs = bs1 ++ bs2.
Proof.
  revert bs. induction l1 as [|a l1 IH]; intros bs; simpl.
  - intros _. by exists [], bs.
  - destruct (f a) as [b| |]; simpl; try done.
    destruct (for_each f (l1 ++ l2)) as [bs'| |] eqn:Hbs; simpl; try done.
    intros [= <-]. destruct (IH bs' eq_refl) as (bs1 & bs2 & -> & ->).
    by exists (b :: bs1), bs2.
Qed.

Lemma for_each_Forall2 {A B : Type} (f : A -> outcome B) (l : list A) (bs : list B) :
  for_each f l = Return bs -> Forall2 (fun a b => f a = Return b) l bs.
Proof.
  revert bs. induction l as [|a l IH]; intros bs; simpl.
  - intros [= <-]. constructor.
  - destruct (f a) as [b| |] eqn:Hb; simpl; try done.
    destruct (for_each f l) as [bs'| |] eqn:Hbs; simpl; try done.
    intros [= <-]. constructor; [done|]. by apply IH.
Qed.

Lemma Forall2_chain {A B C : Type} (P : A -> B -> Prop) (S : B -> C -> Prop)
    (T : A -> C -> Prop) (l : list A) (k : list B) (m : list C) :
  (forall a b c, P a b -> S b c -> T a c) ->
  Forall2 P l k -> Forall2 S k m -> Forall2 T l m.
Proof.
  intros HT H. revert m. induction H as [|a b l k Hab _ IH]; intros m Hm.
  - inversion Hm. constructor.
  - inversion Hm as [|b' c k' m' Hbc Hkm]; subst. constructor; eauto.
Qed.

Lemma create_style_dimensions_length (attributes : gmap string Q) :
  length (create_style_dimensions attributes) = 6%nat.
Proof. reflexivity. Qed.

Lemma scaler_transform_Return (s : StandardScaler) (x : list Q) :
  length x = length (mean_ s) -> length x = length (scale_ s) ->
  scaler_transform s x
  = Return (zip_with Qdiv (zip_with Qminus x (mean_ s)) (scale_ s)).
Proof. intros H1 H2. unfold scaler_transform. by rewrite decide_True. Qed.

Lemma scaler_transform_Raise (s : StandardScaler) (x : list Q) :
  length x <> length (mean_ s) \/ length x <> length (scale_ s) ->
  scaler_transform s x = Raise.
Proof.
  intros H. unfold scaler_transform. rewrite decide_False; [done|].
  intros [? ?]. destruct H; done.
Qed.

Lemma scaler_transform_inv (s : StandardScaler) (x xs : list Q) :
  scaler_transform s x = Return xs ->
  length x = length (mean_ s) /\ length x = length (scale_ s)
  /\ xs = zip_with Qdiv (zip_with Qminus x (mean_ s)) (scale_ s).
Proof.
  unfold scaler_transform.
  destruct (decide _) as [[H1 H2]|]; [|done]. by intros [= <-].
Qed.

(** A list of six entries, entry by entry. *)
Lemma length_6_inv {A : Type} (l : list A) :
  length l = 6%nat -> exists a b c d e f, l = [a; b; c; d; e; f].
Proof.
  intros H. do 6 (destruct l as [|? l]; [done|]).
  destruct l; [|done]. by repeat eexists.
Qed.

(** The scaled vectors and the squared norm of their difference compute the
    squared Euclidean distance in standardized space. *)
Lemma sq_norm_diff_scaled (s : StandardScaler) (x y xs ys : list Q) :
  length y = 6%nat ->
  scaler_transform s x = Return xs -> scaler_transform s y = Return ys ->
  sq_norm_diff xs ys == euclidean_sq s x y.
Proof.
  intros Hy (Hx1 & Hx2 & ->)%scaler_transform_inv
    (Hy1 & Hy2 & ->)%scaler_transform_inv.
  destruct (length_6_inv y Hy) as (y0 & y1 & y2 & y3 & y4 & y5 & ->).
  destruct (length_6_inv (mean_ s)) as (m0 & m1 & m2 & m3 & m4 & m5 & Hm);
    [congruence|].
  destruct (length_6_inv (scale_ s)) as (s0 & s1 & s2 & s3 & s4 & s5 & Hs);
    [congruence|].
  destruct (length_6_inv x) as (x0 & x1 & x2 & x3 & x4 & x5 & ->);
    [congruence|].
  unfold euclidean_sq, standardized_at, sq_norm_diff, np_sum.
  rewrite Hm, Hs. cbn [zip_with map seq nth fold_right]. reflexivity.
Qed.

Section LookupAnyPattern.
Variable re : string -> option (string -> bool).
Variable df : DataFrame.
Variable q : string.

Lemma cell_search_any_false (search : string -> bool) (series : list (option string)) :
  list_find (fun cell => cell_search search cell = true) series = None ->
  mask_any (cell_search search <$> series) = false.
Proof.
  intros Hnone%list_find_None. unfold mask_any.
  induction Hnone as [|cell series Hc _ IH]; [done|].
  simpl. apply not_true_is_false in Hc. by rewrite Hc.
Qed.

Lemma cell_search_any_true (search : string -> bool)
    (series : list (option string)) (i : nat) (cell : option string) :
  list_find (fun cell => cell_search search cell = true) series = Some (i, cell) ->
  mask_any (cell_search search <$> series) = true
  /\ list_find (fun b : bool => b = true) (cell_search search <$> series)
     = Some (i, true).
Proof.
  intros Hfind. split.
  - apply list_find_Some in Hfind as (Hi & Hc & _).
    unfold mask_any. apply existsb_exists. exists true. split; [|done].
    apply list_elem_of_In, list_elem_of_lookup. exists i.
    by rewrite list_lookup_fmap, Hi, <- Hc.
  - rewrite list_find_fmap.
    change ((fun b : bool => b = true) ∘ cell_search search)
      with (fun cell => cell_search search cell = true).
    rewrite Hfind. simpl.
    apply list_find_Some in Hfind as (_ & -> & _). done.
Qed.

Lemma str_contains_compiled (search : string -> bool) (series : list (option string)) :
  re q = Some search ->
  str_contains re q series
  = if str_dtype series then Return (cell_search search <$> series) else Raise.
Proof.
  intros Hre. unfold str_contains. destruct (str_dtype series); [|done].
  rewrite Hre. reflexivity.
Qed.

Lemma str_contains_uncompiled (series : list (option string)) :
  re q = None -> str_contains re q series = Raise.
Proof.
  intros Hre. unfold str_contains. destruct (str_dtype series); [|done].
  by rewrite Hre.
Qed.

Lemma name_loop_compiled (search : string -> bool) (cols : list string)
    (player_mask : option (list bool)) :
  re q = Some search -> quiet player_mask ->
  match lookup_first search df cols with
  | Found c i =>
      exists series,
        name_loop re df q cols player_mask
        = Return (Some (cell_search search <$> series), Some c)
        /\ mask_any (cell_search search <$> series) = true
        /\ list_find (fun b : bool => b = true) (cell_search search <$> series)
           = Some (i, true)
  | NotFound =>
      exists final, name_loop re df q cols player_mask = Return (final, None)
                    /\ quiet final
  | NotStrings _ => name_loop re df q cols player_mask = Raise
  end.
Proof.
  intros Hre. revert player_mask.
  induction cols as [|c cols IH]; intros player_mask Hq.
  - simpl. eauto.
  - simpl. destruct (text_cols df !! c) as [series|]; [|by apply IH].
    rewrite (str_contains_compiled search series Hre).
    destruct (str_dtype series); [|done].
    cbn [mbind outcome_bind].
    destruct (list_find _ series) as [[i cell]|] eqn:Hfind.
    + destruct (cell_search_any_true search series i cell Hfind) as [Hany Hfirst].
      rewrite Hany. eauto.
    + rewrite (cell_search_any_false search series Hfind). apply IH.
      intros mask [= <-]. by apply cell_search_any_false.
Qed.

Lemma find_player_compiled (search : string -> bool) :
  re q = Some search ->
  find_player re df q
  = match lookup_first search df name_columns with
    | Found c i => Return (c, i)
    | NotFound => RaiseHTTP 404
    | NotStrings _ => Raise
    end.
Proof.
  intros Hre. unfold find_player.
  pose proof (name_loop_compiled search name_columns None Hre) as Hloop.
  destruct (lookup_first search df name_columns) as [c i| |c].
  - destruct Hloop as (series & -> & Hany & Hfirst); [by intros ? [=]|].
    simpl. rewrite Hany, Hfirst. reflexivity.
  - destruct Hloop as (final & -> & Hquiet); [by intros ? [=]|].
    simpl. destruct final as [mask|]; [|done].
    by rewrite (Hquiet mask eq_refl).
  - rewrite Hloop; [done|by intros ? [=]].
Qed.

Lemma name_loop_uncompiled (cols : list string) (player_mask : option (list bool)) :
  re q = None ->
  name_loop re df q cols player_mask
  = if decide (Exists (fun c => is_Some (text_cols df !! c)) cols)
    then Raise else Return (player_mask, None).
Proof.
  intros Hre. induction cols as [|c cols IH].
  - cbn [name_loop]. destruct (decide (Exists _ [])) as [Hex|_]; [|done].
    by apply Exists_nil in Hex.
  - cbn [name_loop]. destruct (text_cols df !! c) as [series|] eqn:Hc.
    + rewrite (str_contains_uncompiled series Hre).
      cbn [mbind outcome_bind].
      destruct (decide (Exists _ (c :: cols))) as [_|Hnex]; [done|].
      destruct Hnex. left. rewrite Hc. eauto.
    + rewrite IH.
      destruct (decide (Exists _ cols)) as [Hex|Hnex];
        destruct (decide (Exists _ (c :: cols))) as [Hex'|Hnex']; try done.
      * destruct Hnex'. by right.
      * apply Exists_cons in Hex' as [Hc'|?]; [|done].
        rewrite Hc in Hc'. by destruct Hc'.
Qed.

Lemma find_player_uncompiled :
  re q = None ->
  find_player re df q
  = if decide (Exists (fun c => is_Some (text_cols df !! c)) name_columns)
    then Raise else RaiseHTTP 404.
Proof.
  intros Hre. unfold find_player. rewrite (name_loop_uncompiled _ _ Hre).
  by destruct (decide _).
Qed.

Lemma col_matches_find (search : string -> bool) (c : string) (i : nat) :
  col_matches search df c i
  <-> exists series cell,
        text_cols df !! c = Some series
        /\ list_find (fun cell => cell_search search cell = true) series
           = Some (i, cell).
Proof.
  unfold col_matches. split.
  - intros (series & Hc & (cell & Hi & Hcell) & Hbefore).
    exists series, cell. split; [done|]. apply list_find_Some.
    split; [done|]. split; [done|]. intros j y Hj Hlt.
    rewrite (Hbefore j y Hlt Hj). done.
  - intros (series & cell & Hc & (Hi & Hcell & Hbefore)%list_find_Some).
    exists series. split; [done|]. split; [eauto|].
    intros j y Hlt Hj. apply not_true_is_false. eauto.
Qed.

(** A column with a matching cell holds a string. *)
Lemma str_dtype_find (search : string -> bool) (series : list (option string))
    (i : nat) (cell : option string) :
  list_find (fun cell => cell_search search cell = true) series = Some (i, cell) ->
  str_dtype series = true.
Proof.
  intros (Hi & Hcell & _)%list_find_Some.
  destruct series as [|c0 series]; [done|].
  unfold str_dtype. apply existsb_exists. exists cell. split.
  - apply list_elem_of_In. by eapply list_elem_of_lookup_2.
  - destruct cell; [|done]. apply bool_decide_eq_true. eauto.
Qed.

Lemma col_silent_find (search : string -> bool) (c : string) :
  col_silent search df c
  <-> forall series, text_cols df !! c = Some series ->
        str_dtype series = true
        /\ list_find (fun cell => cell_search search cell = true) series = None.
Proof.
  unfold col_silent. split; intros H series Hc;
    destruct (H series Hc) as [Hd Hn]; (split; [done|]).
  - apply list_find_None. eapply Forall_impl; [exact Hn|].
    intros cell ->. done.
  - apply list_find_None in Hn. eapply Forall_impl; [exact Hn|].
    intros cell. apply not_true_is_false.
Qed.

Lemma lookup_first_Found (search : string -> bool) (cols : list string)
    (c : string) (i : nat) :
  lookup_first search df cols = Found c i
  <-> exists before after,
        cols = before ++ c :: after
        /\ Forall (col_silent search df) before
        /\ col_matches search df c i.
Proof.
  induction cols as [|c0 cols IH]; simpl.
  - split; [done|]. intros (before & after & Hnil & _). by destruct before.
  - split.
    + destruct (text_cols df !! c0) as [series|] eqn:Hc0.
      * destruct (str_dtype series) eqn:Hd; [|done].
        destruct (list_find _ series) as [[i0 cell]|] eqn:Hfind.
        -- intros [= <- <-]. exists [], cols. split; [done|].
           split; [constructor|]. apply col_matches_find. eauto.
        -- intros (before & after & -> & Hsil & Hm)%IH.
           exists (c0 :: before), after. split; [done|]. split; [|done].
           constructor; [|done]. apply col_silent_find.
           intros series' Hs'. by simplify_eq.
      * intros (before & after & -> & Hsil & Hm)%IH.
        exists (c0 :: before), after. split; [done|]. split; [|done].
        constructor; [|done]. intros series' Hs'. congruence.
    + intros (before & after & Hcols & Hsil & Hm).
      destruct before as [|b before]; simpl in Hcols.
      * injection Hcols as <- ->.
        apply col_matches_find in Hm as (series & cell & -> & Hfind).
        by rewrite (str_dtype_find search series i cell Hfind), Hfind.
      * injection Hcols as <- ->. apply Forall_cons in Hsil as [Hb Hsil].
        assert (lookup_first search df (before ++ c :: after) = Found c i)
          as Hrest by (apply IH; eauto).
        destruct (text_cols df !! c0) as [series|] eqn:Hc0; [|done].
        destruct (proj1 (col_silent_find search c0) Hb series Hc0) as [-> ->].
        done.
Qed.

Lemma lookup_first_NotFound (search : string -> bool) (cols : list string) :
  lookup_first search df cols = NotFound <-> Forall (col_silent search df) cols.
Proof.
  induction cols as [|c0 cols IH]; simpl.
  - split; [constructor|done].
  - rewrite Forall_cons, <- IH, col_silent_find.
    destruct (text_cols df !! c0) as [series|] eqn:Hc0.
    + destruct (str_dtype series) eqn:Hd.
      * destruct (list_find _ series) as [[i0 cell]|] eqn:Hfind.
        -- split; [done|]. intros [H _].
           destruct (H series eq_refl) as [_ ?]. congruence.
        -- split; [|by intros [_ ?]]. intros ->. split; [|done].
           intros series' [= <-]. done.
      * split; [done|]. intros [H _].
        destruct (H series eq_refl) as [? _]. congruence.
    + split; [|by intros [_ ?]]. intros ->. split; [|done]. by intros ? [=].
Qed.

Lemma lookup_first_NotStrings (search : string -> bool) (cols : list string)
    (c : string) :
  lookup_first search df cols = NotStrings c
  <-> exists before after,
        cols = before ++ c :: after
        /\ Forall (col_silent search df) before
        /\ column_unreadable df c.
Proof.
  induction cols as [|c0 cols IH]; simpl.
  - split; [done|]. intros (before & after & Hnil & _). by destruct before.
  - split.
    + destruct (text_cols df !! c0) as [series|] eqn:Hc0.
      * destruct (str_dtype series) eqn:Hd.
        -- destruct (list_find _ series) as [[i0 cell]|] eqn:Hfind; [done|].
           intros (before & after & -> & Hsil & Hm)%IH.
           exists (c0 :: before), after. split; [done|]. split; [|done].
           constructor; [|done]. apply col_silent_find.
           intros series' Hs'. by simplify_eq.
        -- intros [= <-]. exists [], cols. split; [done|].
           split; [constructor|]. by exists series.
      * intros (before & after & -> & Hsil & Hm)%IH.
        exists (c0 :: before), after. split; [done|]. split; [|done].
        constructor; [|done]. intros series' Hs'. congruence.
    + intros (before & after & Hcols & Hsil & Hm).
      destruct before as [|b before]; simpl in Hcols.
      * injection Hcols as <- ->. destruct Hm as (series & -> & ->). done.
      * injection Hcols as <- ->. apply Forall_cons in Hsil as [Hb Hsil].
        assert (lookup_first search df (before ++ c :: after) = NotStrings c)
          as Hrest by (apply IH; eauto).
        destruct (text_cols df !! c0) as [series|] eqn:Hc0; [|done].
        destruct (proj1 (col_silent_find search c0) Hb series Hc0) as [-> ->].
        done.
Qed.

(** Two predicates that agree on the names of the columns scanned scan
    them alike. *)
Lemma lookup_first_ext (search search' : string -> bool) (cols : list string) :
  (forall c series s, c ∈ cols -> text_cols df !! c = Some series ->
                      Some s ∈ series -> search s = search' s) ->
  lookup_first search df cols = lookup_first search' df cols.
Proof.
  induction cols as [|c0 cols IH]; intros Hext; [done|]. simpl.
  assert (lookup_first search df cols = lookup_first search' df cols) as Hrest.
  { apply IH. intros c series s Hin. apply Hext. by right. }
  clear IH.
  destruct (text_cols df !! c0) as [series|] eqn:Hc0; [|done].
  destruct (str_dtype series); [|done].
  assert (list_find (fun cell => cell_search search cell = true) series
          = list_find (fun cell => cell_search search' cell = true) series) as ->.
  { assert (forall s, Some s ∈ series -> search s = search' s) as Hs
      by (intros s Hin; eapply Hext; [by left|done|done]).
    clear Hc0 Hext. induction series as [|cell series IHs]; [done|].
    cbn [list_find].
    assert (cell_search search cell = cell_search search' cell) as Hcell.
    { destruct cell as [s|]; [|done]. simpl. apply Hs. by left. }
    rewrite Hcell.
    destruct (decide (cell_search search' cell = true)); [done|].
    rewrite IHs; [done|]. intros s Hin. apply Hs. by right. }
  by rewrite Hrest.
Qed.
End LookupAnyPattern.


(** ** The reducers *)

Lemma np_sum_replicate (n : nat) (q : Q) :
  np_sum (replicate n q) == q * inject_Z (Z.of_nat n).
Proof.
  induction n as [|n IH].
  - simpl. ring.
  - change (np_sum (replicate (S n) q)) with (q + np_sum (replicate n q)).
    rewrite IH, Nat2Z.inj_succ. unfold Z.succ. rewrite inject_Z_plus. ring.
Qed.

Lemma inject_nat_nonzero (n : nat) : n <> 0%nat -> ~ inject_Z (Z.of_nat n) == 0.
Proof.
  intros Hn H. unfold Qeq in H. simpl in H. lia.
Qed.

Lemma np_mean_spec (values : list Q) :
  np_mean values == np_sum values / inject_Z (Z.of_nat (length values)).
Proof. unfold np_mean. apply Qred_correct. Qed.

Lemma np_mean_replicate_50 (n : nat) : n <> 0%nat -> np_mean (replicate n 50) = 50.
Proof.
  intros Hn. unfold np_mean. transitivity (Qred 50); [|reflexivity].
  apply Qred_complete. rewrite np_sum_replicate, length_replicate.
  field. by apply inject_nat_nonzero.
Qed.

Lemma get_or_50_absent (attributes : gmap string Q) (attrs : list string) :
  Forall (fun a => attributes !! a = None) attrs ->
  map (get_or_50 attributes) attrs = replicate (length attrs) 50.
Proof.
  induction 1 as [|a attrs Ha _ IH]; [done|].
  simpl. unfold get_or_50 at 1. rewrite Ha. simpl. by rewrite IH.
Qed.

Lemma get_or_50_present (attributes : gmap string Q) (attrs : list string) :
  Forall (fun a => is_Some (attributes !! a)) attrs ->
  map (get_or_50 attributes) attrs = omap (fun a => attributes !! a) attrs.
Proof.
  induction 1 as [|a attrs [v Ha] _ IH]; [done|].
  simpl. unfold get_or_50 at 1. rewrite Ha. simpl. by rewrite IH.
Qed.

Lemma sum_step_absent (rest : Q) (k : nat) :
  50 + (rest + 50 * inject_Z (Z.of_nat k))
  == rest + 50 * inject_Z (Z.of_nat (S k)).
Proof. rewrite Nat2Z.inj_succ. unfold Z.succ. rewrite inject_Z_plus. ring. Qed.

Lemma np_sum_get_or_50 (attributes : gmap string Q) (attrs : list string) :
  np_sum (map (get_or_50 attributes) attrs)
  == np_sum (present_values attributes attrs)
     + 50 * inject_Z (Z.of_nat (absent_count attributes attrs)).
Proof.
  unfold absent_count, present_values. induction attrs as [|a attrs IH].
  - simpl. ring.
  - rewrite filter_cons. change (map (get_or_50 attributes) (a :: attrs))
      with (get_or_50 attributes a :: map (get_or_50 attributes) attrs).
    change (np_sum (?x :: ?l)) with (x + np_sum l). rewrite IH.
    change (np_sum (omap (fun a0 => attributes !! a0) (a :: attrs)))
      with (np_sum (match attributes !! a with
                    | Some v => v :: omap (fun a0 => attributes !! a0) attrs
                    | None => omap (fun a0 => attributes !! a0) attrs
                    end)).
    unfold get_or_50.
    destruct (attributes !! a) as [v|] eqn:Ha.
    + rewrite decide_False by done.
      change (np_sum (?x :: ?l)) with (x + np_sum l). simpl default.
      apply Qplus_assoc.
    + rewrite decide_True by done. apply sum_step_absent.
Qed.

Lemma absent_count_0 (attributes : gmap string Q) (attrs : list string) :
  absent_count attributes attrs = 0%nat ->
  Forall (fun a => is_Some (attributes !! a)) attrs.
Proof.
  unfold absent_count. induction attrs as [|a attrs IH]; [constructor|].
  rewrite filter_cons. destruct (decide (attributes !! a = None)) as [Ha|Ha].
  - simpl. lia.
  - intros H. constructor; [|by apply IH].
    destruct (attributes !! a); [eauto|done].
Qed.

Lemma present_values_nil (attributes : gmap string Q) (attrs : list string) :
  present_values attributes attrs = [] ->
  Forall (fun a => attributes !! a = None) attrs.
Proof.
  unfold present_values. induction attrs as [|a attrs IH]; [constructor|].
  simpl. destruct (attributes !! a) eqn:Ha; [done|]. auto.
Qed.

(** C9: the record with exactly skill_dribbling=90, skill_ball_control=85,
    movement_agility=80 and movement_balance=75 reduces to dribbling = 82.5
    (written 165/2) and to exactly 50 for the five other dimensions. *)
Theorem C9_dribbling_scenario :
  combine (map fst style_dims) (create_style_dimensions record_C9)
  = [ ("pace", 50); ("dribbling", 165 # 2); ("creativity", 50);
      ("finishing", 50); ("defense", 50); ("physicality", 50) ]%string
  /\ 165 # 2 == 82.5
  /\ 165 # 2 == np_sum [90; 85; 80; 75] / 4.
Proof. split; [vm_compute; reflexivity|]. split; reflexivity. Qed.

(** C2 as stated fails: with skill_dribbling=90 as the only attribute, the
    dribbling dimension is 60 = (90+50+50+50)/4, not the mean 90 of the
    present candidates. *)
Lemma C2_absent_counts_as_50_counterexample :
  create_style_dimensions record_dribbling_only !! 1%nat = Some 60
  /\ reduce_present_only record_dribbling_only !! 1%nat = Some 90
  /\ create_style_dimensions record_dribbling_only
     <> reduce_present_only record_dribbling_only.
Proof.
  split; [vm_compute; reflexivity|]. split; [vm_compute; reflexivity|].
  vm_compute. discriminate.
Qed.

Lemma style_dims_nonempty (d : nat) (dimension : string) (attrs : list string) :
  style_dims !! d = Some (dimension, attrs) -> attrs <> [].
Proof.
  intros H Hnil. subst attrs.
  do 6 (destruct d as [|d]; [discriminate H|]). discriminate H.
Qed.

(** C2, amended: every dimension of [create_style_dimensions] is the mean
    over ALL its candidate attributes, an absent candidate counting as 50:
    (sum of the present values + 50 * number of absent candidates) / number
    of candidates.  With every candidate present it is the mean of the
    present values; with none present it is exactly 50. *)
Theorem C2_mean_with_absent_as_50
    (attributes : gmap string Q) (d : nat) (dimension : string)
    (attrs : list string) :
  style_dims !! d = Some (dimension, attrs) ->
  exists v : Q,
    create_style_dimensions attributes !! d = Some v
    /\ v == (np_sum (present_values attributes attrs)
             + 50 * inject_Z (Z.of_nat (absent_count attributes attrs)))
            / inject_Z (Z.of_nat (length attrs))
    /\ (absent_count attributes attrs = 0%nat ->
        v = np_mean (present_values attributes attrs))
    /\ (present_values attributes attrs = [] -> v = 50).
Proof.
  intros Hd. exists (np_mean (map (get_or_50 attributes) attrs)).
  split; [|split; [|split]].
  - unfold create_style_dimensions. rewrite list_lookup_fmap, Hd. reflexivity.
  - rewrite np_mean_spec, length_map, np_sum_get_or_50. reflexivity.
  - intros H0. apply absent_count_0 in H0.
    unfold present_values. by rewrite get_or_50_present.
  - intros Hnil. apply present_values_nil in Hnil.
    rewrite get_or_50_absent by done. apply np_mean_replicate_50.
    intros Hlen. apply (style_dims_nonempty d dimension attrs Hd).
    by apply length_zero_iff_nil.
Qed.

Lemma C2_mean_with_absent_as_50_witness :
  exists v : Q,
    create_style_dimensions record_dribbling_only !! 1%nat = Some v
    /\ v == (np_sum (present_values record_dribbling_only
                       ["skill_dribbling"; "skill_ball_control";
                        "movement_agility"; "movement_balance"]%string)
             + 50 * inject_Z (Z.of_nat (absent_count record_dribbling_only
                       ["skill_dribbling"; "skill_ball_control";
                        "movement_agility"; "movement_balance"]%string)))
            / inject_Z (Z.of_nat 4)
    /\ (absent_count record_dribbling_only
          ["skill_dribbling"; "skill_ball_control";
           "movement_agility"; "movement_balance"]%string = 0%nat ->
        v = np_mean (present_values record_dribbling_only
                       ["skill_dribbling"; "skill_ball_control";
                        "movement_agility"; "movement_balance"]%string))
    /\ (present_values record_dribbling_only
          ["skill_dribbling"; "skill_ball_control";
           "movement_agility"; "movement_balance"]%string = [] -> v = 50).
Proof.
  apply (C2_mean_with_absent_as_50 record_dribbling_only 1 "dribbling").
  reflexivity.
Defined.

(** *** Batch against single-record reduction *)

Lemma to_dict_lookup (df : DataFrame) (r : nat) (c : string) :
  to_dict df r !! c = num_cols df !! c ≫= (fun col : list Q => col !! r).
Proof. unfold to_dict. apply lookup_omap. Qed.

Lemma row_cells_get_or_50 (df : DataFrame) (r : nat) (attrs : list string) :
  df_wf df -> (r < len_df df)%nat ->
  Forall (fun c => is_Some (num_cols df !! c)) attrs ->
  row_cells df attrs r = map (get_or_50 (to_dict df r)) attrs.
Proof.
  intros [_ Hwf] Hr. unfold row_cells.
  induction 1 as [|c attrs [col Hc] _ IH]; [done|].
  assert (is_Some (col !! r)) as [x Hx].
  { apply lookup_lt_is_Some. rewrite (Hwf c col Hc). done. }
  cbn [map]. rewrite <- IH. unfold get_or_50.
  rewrite to_dict_lookup. simpl. rewrite Hc. simpl. rewrite Hx. done.
Qed.

Lemma available_attrs_nil (df : DataFrame) (attrs : list string) (c : string) :
  available_attrs df attrs = [] -> c ∈ attrs -> num_cols df !! c = None.
Proof.
  unfold available_attrs. intros Hnil Hc.
  destruct (num_cols df !! c) as [col|] eqn:Hcol; [|done].
  assert (c ∈ filter (fun col => is_Some (num_cols df !! col)) attrs) as Hin.
  { apply list_elem_of_filter. split; [rewrite Hcol; eauto|done]. }
  rewrite Hnil in Hin. by apply elem_of_nil in Hin.
Qed.

Lemma feature_column_agrees (df : DataFrame) (r : nat) (single batch : list string) :
  df_wf df -> (r < len_df df)%nat ->
  available_attrs df batch = single \/ available_attrs df batch = [] ->
  single ⊆ batch -> single <> [] ->
  feature_column df batch !! r
  = Some (np_mean (map (get_or_50 (to_dict df r)) single)).
Proof.
  intros Hwf Hr Hav Hsub Hne. unfold feature_column.
  destruct Hav as [Hav|Hav].
  - assert (Forall (fun c => is_Some (num_cols df !! c)) single) as Hall.
    { rewrite <- Hav. unfold available_attrs. apply Forall_forall.
      intros c Hc. by apply list_elem_of_filter in Hc as [? _]. }
    rewrite Hav. destruct single as [|c0 single]; [done|].
    unfold mean_axis1. rewrite list_lookup_fmap, lookup_seq_lt by done.
    cbn [fmap option_fmap option_map plus].
    by rewrite row_cells_get_or_50.
  - rewrite Hav, lookup_replicate_2 by done. f_equal.
    rewrite get_or_50_absent.
    + symmetry. apply np_mean_replicate_50.
      intros Hlen. by apply Hne, length_zero_iff_nil.
    + apply Forall_forall. intros c Hc. rewrite to_dict_lookup.
      rewrite (available_attrs_nil df batch c Hav); [done|]. by apply Hsub.
Qed.

(** C1 as stated fails: a table that has movement_acceleration but not
    movement_sprint_speed.  The batch reducer averages the one column found
    (pace 90); the single-record reducer counts the missing attribute as 50
    (pace 70). *)
Lemma C1_batch_single_disagree_counterexample :
  df_wf df_one_column
  /\ create_style_dimensions_batch df_one_column !! 0%nat
     = Some [90; 50; 50; 50; 50; 50]
  /\ create_style_dimensions (to_dict df_one_column 0) = [70; 50; 50; 50; 50; 50]
  /\ create_style_dimensions_batch df_one_column !! 0%nat
     <> Some (create_style_dimensions (to_dict df_one_column 0)).
Proof.
  split.
  { split; apply (bool_decide_unpack _); vm_compute; reflexivity. }
  split; [vm_compute; reflexivity|]. split; [vm_compute; reflexivity|].
  vm_compute. discriminate.
Qed.

Lemma transposed_row_agrees
    (df : DataFrame) (r : nat) (singles batches : list (string * list string)) :
  df_wf df -> (r < len_df df)%nat ->
  Forall2 (fun single batch : string * list string =>
             (available_attrs df batch.2 = single.2
              \/ available_attrs df batch.2 = [])
             /\ single.2 ⊆ batch.2 /\ single.2 <> []) singles batches ->
  omap (fun c : list Q => c !! r)
       (map (fun '(dimension, attrs) => feature_column df attrs) batches)
  = map (fun '(dimension, attrs) => np_mean (map (get_or_50 (to_dict df r)) attrs))
        singles.
Proof.
  intros Hwf Hr.
  induction 1 as [|[ds single] [db batch] singles batches (Hav & Hsub & Hne) _ IH];
    [done|].
  cbn [map omap list_omap].
  change (omap ?f ?l) with (list_omap _ _ f l) in IH.
  rewrite (feature_column_agrees df r single batch) by done.
  f_equal. by apply IH.
Qed.

(** On an aligned table the batch reducer finds, for each dimension, the
    candidates of the single reducer or nothing. *)
Lemma available_attrs_aligned (df : DataFrame) (single alts : list string) :
  Forall (fun c => num_cols df !! c = None) alts ->
  Forall (fun c => is_Some (num_cols df !! c)) single
  \/ Forall (fun c => num_cols df !! c = None) single ->
  available_attrs df (single ++ alts) = single
  \/ available_attrs df (single ++ alts) = [].
Proof.
  intros Halts Hsingle. unfold available_attrs. rewrite filter_app.
  assert (filter (fun col => is_Some (num_cols df !! col)) alts = []) as ->.
  { induction Halts as [|c alts Hc _ IH]; [done|].
    rewrite filter_cons_False; [done|]. rewrite Hc. by intros [? ?]. }
  rewrite app_nil_r. destruct Hsingle as [Hall|Hnone]; [left|right].
  - induction Hall as [|c single Hc _ IH]; [done|].
    rewrite filter_cons_True by done. by rewrite IH.
  - induction Hnone as [|c single Hc _ IH]; [done|].
    rewrite filter_cons_False; [done|]. rewrite Hc. by intros [? ?].
Qed.

Lemma style_dims_batch_shape :
  Forall2 (fun single batch : string * list string =>
             batch.2 = single.2 ++ list_difference batch.2 single.2
             /\ single.2 ⊆ batch.2 /\ single.2 <> [])
          style_dims style_dims_batch.
Proof. apply (bool_decide_unpack _). vm_compute. reflexivity. Qed.

Lemma schema_aligned_available (df : DataFrame) :
  schema_aligned df ->
  Forall2 (fun single batch : string * list string =>
             (available_attrs df batch.2 = single.2
              \/ available_attrs df batch.2 = [])
             /\ single.2 ⊆ batch.2 /\ single.2 <> [])
          style_dims style_dims_batch.
Proof.
  unfold schema_aligned, alternate_names. intros [Halt Hsingle].
  pose proof style_dims_batch_shape as Hshape.
  revert Halt Hsingle Hshape. generalize style_dims style_dims_batch.
  intros singles batches Halt Hsingle Hshape.
  induction Hshape as [|single batch singles batches (Hb & Hsub & Hne) _ IH];
    [constructor|].
  cbn [zip_with concat] in Halt. apply Forall_app in Halt as [Halt1 Halt2].
  apply Forall_cons in Hsingle as [Hs1 Hs2].
  constructor; [|by apply IH].
  split; [|done]. rewrite Hb. by apply available_attrs_aligned.
Qed.

(** C1, amended: on a well-formed table aligned with the single reducer
    (no alternate, unprefixed attribute name among the columns, and the
    prefixed candidates of each dimension present all together or not at
    all), row [r] of [create_style_dimensions_batch] is
    [create_style_dimensions] of row [r] taken as a record. *)
Theorem C1_batch_agrees_on_aligned_schema (df : DataFrame) (r : nat) :
  df_wf df -> schema_aligned df -> (r < len_df df)%nat ->
  create_style_dimensions_batch df !! r
  = Some (create_style_dimensions (to_dict df r)).
Proof.
  intros Hwf Hal Hr.
  unfold create_style_dimensions_batch, transpose.
  rewrite list_lookup_fmap, lookup_seq_lt by done.
  cbn [fmap option_fmap option_map]. f_equal.
  apply (transposed_row_agrees df r style_dims style_dims_batch Hwf Hr).
  by apply schema_aligned_available.
Qed.

Lemma C1_batch_agrees_on_aligned_schema_witness :
  create_style_dimensions_batch df_pace !! 1%nat
  = Some (create_style_dimensions (to_dict df_pace 1)).
Proof.
  apply (C1_batch_agrees_on_aligned_schema df_pace 1).
  - split; apply (bool_decide_unpack _); vm_compute; reflexivity.
  - split; apply (bool_decide_unpack _); vm_compute; reflexivity.
  - simpl. lia.
Defined.

(** ** Loading the artifacts *)

(** C3 as stated fails: a five-entry label map next to a six-centroid model
    loads without an error. *)
Lemma C3_mismatch_loads_counterexample :
  size labels_five = 5%nat
  /\ length (cluster_centers_ kmeans_six) = 6%nat
  /\ load_models disk_mismatch
     = Return {| scaler := scaler_identity; kmeans := kmeans_six;
                 cluster_labels := labels_five; player_data := df_pace |}.
Proof. split; [vm_compute; reflexivity|]. split; reflexivity. Qed.

(** C3, amended: [load_models] compares nothing.  When the four files
    exist, loading succeeds with the artifacts as stored, also when the
    label map's entry count differs from the centroid count; the server
    starts, and the mismatch shows only per request: [predict_cluster]
    answers HTTP 500 whenever the predicted cluster has no entry in the
    label map. *)
Theorem C3_load_models_compares_nothing
    (disk : Disk) (s : StandardScaler) (k : KMeans)
    (l : gmap string string) (p : DataFrame) :
  scaler_pkl disk = Some s -> kmeans_pkl disk = Some k ->
  cluster_labels_json disk = Some l -> FC26_csv disk = Some p ->
  size l <> length (cluster_centers_ k) ->
  load_models disk
  = Return {| scaler := s; kmeans := k; cluster_labels := l; player_data := p |}
  /\ forall (attributes : gmap string Q) (x : list Q) (cluster_id : nat),
       scaler_transform s (create_style_dimensions attributes) = Return x ->
       kmeans_predict k x = Return cluster_id ->
       l !! py_str cluster_id = None ->
       predict_cluster
         {| scaler := s; kmeans := k; cluster_labels := l; player_data := p |}
         attributes
       = RaiseHTTP 500.
Proof.
  intros Hs Hk Hl Hp _. split.
  - unfold load_models. rewrite Hs, Hk, Hl, Hp. reflexivity.
  - intros attributes x cluster_id Hx Hc Hnone. unfold predict_cluster.
    simpl. rewrite Hx. simpl. rewrite Hc. simpl. rewrite Hnone. reflexivity.
Qed.

Lemma C3_load_models_compares_nothing_witness :
  load_models disk_mismatch
  = Return {| scaler := scaler_identity; kmeans := kmeans_six;
              cluster_labels := labels_five; player_data := df_pace |}
  /\ predict_cluster
       {| scaler := scaler_identity; kmeans := kmeans_six;
          cluster_labels := labels_five; player_data := df_pace |} ∅
     = RaiseHTTP 500.
Proof.
  destruct (C3_load_models_compares_nothing disk_mismatch scaler_identity
              kmeans_six labels_five df_pace) as [Hload Hpredict].
  - reflexivity.
  - reflexivity.
  - reflexivity.
  - reflexivity.
  - vm_compute. lia.
  - split; [exact Hload|].
    apply (Hpredict ∅ (replicate 6 50) 5%nat); vm_compute; reflexivity.
Defined.

(** ** Request validation *)

(** A request without a name is rejected whatever its top_n. *)
Example empty_player_name_rejected :
  validate_request
    {| body_player_name := Some EmptyString; body_top_n := Some 5%Z |}
  = None.
Proof. reflexivity. Qed.

(** C10: for a request with a valid (non-empty) player_name, a top_n
    outside [1, 20] fails validation and the route answers 422 whatever
    the loaded engine and data: the handler, with its lookup and distance
    computation, is not called.  A top_n in [1, 20] is accepted, and the
    handler receives the request as sent. *)
Theorem C10_top_n_validated_before_handler
    (re : string -> option (string -> bool)) (g : Globals)
    (body : SimilarPlayerBody) (name : string) (n : Z) :
  body_player_name body = Some name -> name <> EmptyString ->
  body_top_n body = Some n ->
  ((n < 1 \/ 20 < n)%Z ->
   validate_request body = None
   /\ similar_players_route re g body = RaiseHTTP 422)
  /\ ((1 <= n <= 20)%Z ->
      validate_request body = Some {| player_name := name; top_n := n |}
      /\ similar_players_route re g body
         = find_similar_players re g {| player_name := name; top_n := n |}).
Proof.
  intros Hname Hne Hn. unfold similar_players_route, validate_request.
  rewrite Hname, Hn. simpl.
  assert (valid_player_name name = true) as -> by (by destruct name).
  simpl. split.
  - intros Hout. replace (valid_top_n n) with false; [done|].
    unfold valid_top_n. symmetry. apply andb_false_iff. lia.
  - intros Hin. replace (valid_top_n n) with true; [done|].
    unfold valid_top_n. symmetry. apply andb_true_iff. lia.
Qed.

Lemma C10_top_n_validated_before_handler_witness :
  validate_request
    {| body_player_name := Some "Ada"%string; body_top_n := Some 21%Z |}
  = None
  /\ similar_players_route re_small globals_unprefixed
       {| body_player_name := Some "Ada"%string; body_top_n := Some 21%Z |}
     = RaiseHTTP 422.
Proof.
  apply (C10_top_n_validated_before_handler re_small globals_unprefixed
           {| body_player_name := Some "Ada"%string; body_top_n := Some 21%Z |}
           "Ada" 21%Z); [reflexivity|discriminate|reflexivity|lia].
Defined.

(** ** Ranking *)

Lemma insert_sorted_perm (x : Q * nat) (l : list (Q * nat)) :
  insert_sorted x l ≡ₚ x :: l.
Proof.
  induction l as [|y l IH]; [done|]. simpl.
  destruct (Qle_bool x.1 y.1); [done|].
  rewrite IH. apply Permutation_swap.
Qed.

Lemma sort_pairs_perm (l : list (Q * nat)) : foldr insert_sorted [] l ≡ₚ l.
Proof.
  induction l as [|x l IH]; [done|]. simpl.
  by rewrite insert_sorted_perm, IH.
Qed.

Lemma insert_sorted_sorted (x : Q * nat) (l : list (Q * nat)) :
  StronglySorted pair_le l -> StronglySorted pair_le (insert_sorted x l).
Proof.
  induction l as [|y l IH]; intros Hs; simpl.
  - repeat constructor.
  - apply StronglySorted_cons in Hs as [Hy Hs].
    destruct (Qle_bool x.1 y.1) eqn:Hxy.
    + apply Qle_bool_iff in Hxy. apply StronglySorted_cons. split.
      * constructor; [done|]. eapply Forall_impl; [exact Hy|].
        intros z Hz. unfold pair_le in *. by eapply Qle_trans.
      * by apply StronglySorted_cons.
    + apply StronglySorted_cons. split; [|by apply IH].
      rewrite insert_sorted_perm. constructor; [|done].
      unfold pair_le. apply Qlt_le_weak, Qnot_le_lt.
      intros Hle. apply Qle_bool_iff in Hle. congruence.
Qed.

Lemma sort_pairs_sorted (l : list (Q * nat)) :
  StronglySorted pair_le (foldr insert_sorted [] l).
Proof.
  induction l as [|x l IH]; simpl; [constructor|].
  by apply insert_sorted_sorted.
Qed.

Lemma zip_seq_lookup (a : list Q) (p : Q * nat) :
  p ∈ zip a (seq 0 (length a)) -> a !! p.2 = Some p.1.
Proof.
  intros Hp. apply list_elem_of_lookup in Hp as [j Hj].
  apply lookup_zip_with_Some in Hj as (d & i & -> & Hd & Hi).
  apply lookup_seq in Hi as [-> _]. done.
Qed.

(** [np_argsort] lists every index once, in ascending order of the keys. *)
Lemma np_argsort_spec (a : list Q) :
  np_argsort a ≡ₚ seq 0 (length a)
  /\ exists ds, Forall2 (fun i d => a !! i = Some d) (np_argsort a) ds
                /\ StronglySorted Qle ds.
Proof.
  unfold np_argsort. set (pairs := foldr insert_sorted [] _).
  assert (pairs ≡ₚ zip a (seq 0 (length a))) as Hperm
    by apply sort_pairs_perm.
  split.
  - rewrite Hperm. rewrite snd_zip; [done|]. by rewrite length_seq.
  - exists (map fst pairs). split.
    + assert (Forall (fun p : Q * nat => a !! p.2 = Some p.1) pairs) as Hall.
      { rewrite Hperm. apply Forall_forall. intros p. apply zip_seq_lookup. }
      clear Hperm. induction Hall; simpl; constructor; auto.
    + pose proof (sort_pairs_sorted (zip a (seq 0 (length a)))) as Hs.
      fold pairs in Hs. clear Hperm. induction Hs as [|p l _ IH Hp]; simpl.
      * constructor.
      * constructor; [done|]. apply Forall_fmap.
        eapply Forall_impl; [exact Hp|]. done.
Qed.

Lemma np_argsort_length (a : list Q) : length (np_argsort a) = length a.
Proof.
  destruct (np_argsort_spec a) as [Hperm _].
  by rewrite Hperm, length_seq.
Qed.

Lemma clip_arith (count : Z) (n : nat) :
  (0 <= count)%Z ->
  Z.to_nat ((count + 1) `min` Z.of_nat (S n) - 1 `min` Z.of_nat (S n))
  = Nat.min (Z.to_nat count) n
  /\ Z.to_nat (1 `min` Z.of_nat (S n)) = 1%nat.
Proof. lia. Qed.

Lemma take_min_length {A : Type} (k : nat) (l : list A) :
  take (Nat.min k (length l)) l = take k l.
Proof.
  destruct (Nat.min_spec k (length l)) as [[_ ->]|[Hle ->]]; [done|].
  by rewrite firstn_all, take_ge.
Qed.

(** For a count that is not negative, [l[1:count + 1]] drops the first
    entry and keeps at most [count] of the rest. *)
Lemma py_slice_1 {A : Type} (count : Z) (l : list A) :
  (0 <= count)%Z ->
  py_slice 1 (count + 1) l = take (Z.to_nat count) (drop 1 l).
Proof.
  intros Hc. unfold py_slice.
  destruct (Z.ltb_spec 1 0) as [?|_]; [lia|].
  destruct (Z.ltb_spec (count + 1) 0) as [?|_]; [lia|].
  destruct l as [|x l]; [by rewrite !drop_nil, !take_nil|].
  rewrite length_cons.
  destruct (clip_arith count (length l) Hc) as [-> ->].
  simpl drop. apply take_min_length.
Qed.

Lemma for_each_length {A B : Type} (f : A -> outcome B) (l : list A) (bs : list B) :
  for_each f l = Return bs -> length bs = length l.
Proof.
  revert bs. induction l as [|a l IH]; intros bs; simpl.
  - by intros [= <-].
  - destruct (f a) as [b| |]; simpl; try done.
    destruct (for_each f l) as [bs'| |]; simpl; try done.
    intros [= <-]. simpl. f_equal. by apply IH.
Qed.

Lemma create_style_dimensions_batch_length (df : DataFrame) :
  length (create_style_dimensions_batch df) = len_df df.
Proof.
  unfold create_style_dimensions_batch, transpose.
  by rewrite length_map, length_seq.
Qed.

Lemma distances_from_length (g : Globals) (row : nat) (distances : list Q) :
  distances_from g row = Return distances ->
  length distances = len_df (player_data g).
Proof.
  unfold distances_from.
  destruct (scaler_transform _ (create_style_dimensions _)) as [ps| |];
    simpl; try done.
  destruct (for_each _ _) as [xs| |] eqn:Hxs; simpl; try done.
  intros [= <-]. rewrite length_map, (for_each_length _ _ _ Hxs).
  apply create_style_dimensions_batch_length.
Qed.

Lemma validate_request_top_n (body : SimilarPlayerBody) (request : SimilarPlayerRequest) :
  validate_request body = Some request -> (1 <= top_n request <= 20)%Z.
Proof.
  unfold validate_request. destruct (body_player_name body) as [name|]; [|done].
  simpl. destruct (valid_player_name name); [|done]. simpl.
  destruct (valid_top_n _) eqn:Hv; [|done]. intros [= <-]. simpl.
  unfold valid_top_n in Hv. apply andb_true_iff in Hv. lia.
Qed.

Lemma StronglySorted_take_drop {A : Type} (R : relation A) (k m : nat) (l : list A) :
  StronglySorted R l -> StronglySorted R (take k (drop m l)).
Proof.
  intros Hs. rewrite <- (take_drop m l) in Hs.
  apply StronglySorted_app_1_r in Hs.
  rewrite <- (take_drop k (drop m l)) in Hs.
  by apply StronglySorted_app_1_l in Hs.
Qed.

(** What a successful request went through. *)
Lemma similar_players_route_Return
    (re : string -> option (string -> bool)) (g : Globals)
    (body : SimilarPlayerBody) (names : list string) :
  similar_players_route re g body = Return names ->
  exists request col row distances cells,
    validate_request body = Some request
    /\ find_player re (player_data g) (player_name request) = Return (col, row)
    /\ distances_from g row = Return distances
    /\ names_at (player_data g) col
         (py_slice 1 (top_n request + 1) (np_argsort distances))
       = Return cells
    /\ SimilarPlayerResponse cells = Return names.
Proof.
  unfold similar_players_route.
  destruct (validate_request body) as [request|]; [|done].
  unfold find_similar_players, except_500, similar_indices.
  destruct (find_player re _ _) as [[col row]| |] eqn:Hf; simpl; try done.
  destruct (distances_from g row) as [distances| |] eqn:Hd; simpl; try done.
  destruct (names_at _ _ _) as [cells| |] eqn:Hn; simpl; try done.
  destruct (SimilarPlayerResponse cells) as [names'| |] eqn:Hr; try done.
  intros [= <-]. by exists request, col, row, distances, cells.
Qed.

(** The names returned are the names held by the rows selected. *)
Lemma names_of_rows (df : DataFrame) (col : string) (indices : list nat)
    (cells : list (option string)) (names : list string) :
  names_at df col indices = Return cells ->
  SimilarPlayerResponse cells = Return names ->
  exists series,
    text_cols df !! col = Some series
    /\ Forall2 (fun i name => series !! i = Some (Some name)) indices names.
Proof.
  unfold names_at, SimilarPlayerResponse.
  destruct (text_cols df !! col) as [series|]; [|done]. simpl.
  intros Hcells%for_each_Forall2 Hnames%for_each_Forall2.
  exists series. split; [done|].
  eapply Forall2_chain; [|exact Hcells|exact Hnames].
  intros i cell name Hi Hcell. simpl in Hi, Hcell.
  destruct (series !! i) as [cell'|]; [|done]. injection Hi as ->.
  destruct cell as [name'|]; [|done]. by injection Hcell as ->.
Qed.

(** Every distance computed is the squared Euclidean distance, in the
    scaler's standardized space, between a row of the batch reduction and
    the matched row reduced as a single record. *)
Lemma distances_from_euclidean (g : Globals) (row : nat) (distances : list Q)
    (i : nat) (d : Q) :
  distances_from g row = Return distances -> distances !! i = Some d ->
  exists x,
    create_style_dimensions_batch (player_data g) !! i = Some x
    /\ d == euclidean_sq (scaler g) x
              (create_style_dimensions (to_dict (player_data g) row)).
Proof.
  unfold distances_from.
  destruct (scaler_transform _ (create_style_dimensions _)) as [ps| |] eqn:Hps;
    simpl; try done.
  destruct (for_each _ _) as [xs| |] eqn:Hxs; simpl; try done.
  intros [= <-]. rewrite list_lookup_fmap.
  destruct (xs !! i) as [xi|] eqn:Hxi; [|done]. intros [= <-].
  apply for_each_Forall2 in Hxs.
  destruct (Forall2_lookup_r _ _ _ _ _ Hxs Hxi) as (x & Hx & Hsx).
  exists x. split; [done|].
  by apply (sq_norm_diff_scaled (scaler g) x _ xi ps).
Qed.

Lemma Forall2_exists_r {A B C : Type} (P : A -> C -> Prop) (S : B -> C -> Prop)
    (l : list A) (k : list B) :
  Forall2 (fun a b => exists c, P a c /\ S b c) l k ->
  exists cs, Forall2 P l cs /\ Forall2 S k cs.
Proof.
  induction 1 as [|a b l k (c & Hp & Hs) _ (cs & Hps & Hss)].
  - exists []. by split.
  - exists (c :: cs). by split; constructor.
Qed.

(** Rational squares in non-decreasing order are the squares of real
    distances in non-decreasing order. *)
Lemma sorted_euclidean_distances (s : StandardScaler) (y : list Q)
    (ds : list Q) (xs : list (list Q)) :
  Forall2 (fun d x => d == euclidean_sq s x y) ds xs ->
  StronglySorted Qle ds ->
  StronglySorted Rle (map (fun x => euclidean_distance s x y) xs).
Proof.
  induction 1 as [|d x ds xs Hd Hrest IH]; intros Hs; simpl; [constructor|].
  apply StronglySorted_cons in Hs as [Hhead Hs].
  apply StronglySorted_cons. split; [|by apply IH].
  clear IH Hs. induction Hrest as [|d' x' ds xs Hd' _ IH]; simpl; [constructor|].
  apply Forall_cons in Hhead as [Hle Hhead]. constructor; [|by apply IH].
  unfold euclidean_distance. apply sqrt_le_1_alt.
  rewrite <- (Qeq_eqR _ _ Hd), <- (Qeq_eqR _ _ Hd'). by apply Qle_Rle.
Qed.



(** Whatever the stop bound, [l[1:stop]] takes its entries after the
    first one. *)
Lemma py_slice_1_sublist {A : Type} (stop : Z) (l : list A) :
  py_slice 1 stop l ⊆ drop 1 l.
Proof.
  unfold py_slice. destruct (Z.ltb_spec 1 0) as [?|_]; [lia|].
  destruct l as [|x l]; [by rewrite drop_nil, take_nil|].
  rewrite length_cons.
  replace (Z.to_nat (1 `min` Z.of_nat (S (length l)))) with 1%nat by lia.
  apply sublist_subseteq, sublist_take.
Qed.

(** When the matched row is strictly nearer to the query than every other
    row, it sorts first and the slice leaves it out. *)
Lemma own_row_excluded_when_strictly_nearest
    (distances : list Q) (row : nat) (d_row : Q) (stop : Z) :
  distances !! row = Some d_row ->
  (forall j d, j <> row -> distances !! j = Some d -> d_row < d) ->
  row ∉ py_slice 1 stop (np_argsort distances).
Proof.
  intros Hrow Hnear Hin. apply py_slice_1_sublist in Hin.
  destruct (np_argsort_spec distances) as [Hperm (ds & Hds & Hsorted)].
  assert (NoDup (np_argsort distances)) as Hnodup
    by (rewrite Hperm; apply NoDup_seq).
  destruct Hds as [|i d indices ds Hi Hds]; [by apply elem_of_nil in Hin|].
  simpl in Hin. apply NoDup_cons in Hnodup as [Hi_notin _].
  assert (i <> row) as Hne by (intros ->; done).
  apply StronglySorted_cons in Hsorted as [Hhead _].
  apply list_elem_of_lookup in Hin as [k Hk].
  destruct (Forall2_lookup_l _ _ _ _ _ Hds Hk) as (d' & Hd' & Hrow').
  rewrite Hrow in Hrow'. injection Hrow' as <-.
  pose proof (Hnear i d Hne Hi) as Hlt.
  assert (d <= d_row) as Hle.
  { eapply (proj1 (Forall_forall _ _) Hhead). by eapply list_elem_of_lookup_2. }
  apply (Qlt_irrefl d). by eapply Qle_lt_trans.
Qed.

(** With an exact duplicate of the query row in the table, and equal
    distances kept in index order, the row dropped is the duplicate and the
    query's own row is returned. *)
Example duplicate_rows_keep_query :
  find_player re_small df_duplicates "bo" = Return ("short_name"%string, 1%nat)
  /\ distances_from globals_duplicates 1 = Return [0; 0]
  /\ similar_indices globals_duplicates 1 1 = Return [1%nat].
Proof. repeat split; vm_compute; reflexivity. Qed.

(** C4, evaluated where the code departs from it: on a dataset in the
    unprefixed naming the query row reduces to the all-50 vector, so the
    row itself is not the nearest one; the nearest row (another player) is
    dropped and the query's own row is returned. *)
Theorem C4_own_row_returned :
  find_player re_small df_unprefixed "Ada" = Return ("short_name"%string, 0%nat)
  /\ create_style_dimensions (to_dict df_unprefixed 0) = replicate 6 50
  /\ create_style_dimensions_batch df_unprefixed
     = [[90; 50; 50; 50; 50; 50]; replicate 6 50]
  /\ distances_from globals_unprefixed 0 = Return [1600; 0]
  /\ similar_indices globals_unprefixed 0 1 = Return [0%nat]
  /\ find_similar_players re_small globals_unprefixed
       {| player_name := "Ada"; top_n := 1 |}
     = Return ["Ada"%string].
Proof. repeat split; vm_compute; reflexivity. Qed.

(** ** Name lookup *)


Section Lookup.
Variable re : string -> option (string -> bool).
Hypothesis re_literal : literal_on_plain re.
Variable df : DataFrame.
Hypothesis df_ascii : ascii_names df.
Variable q : string.
Hypothesis q_plain : plain q.
Hypothesis q_ascii : ascii_only q = true.

(** For a plain query the lookup scans the name columns with
    case-insensitive substring search. *)
Lemma find_player_plain :
  find_player re df q
  = match lookup_first (ci_contains q) df name_columns with
    | Found c i => Return (c, i)
    | NotFound => RaiseHTTP 404
    | NotStrings _ => Raise
    end.
Proof.
  destruct (re_literal q q_plain q_ascii) as (search & Hre & Hs).
  rewrite (find_player_compiled re df q search Hre).
  rewrite (lookup_first_ext df search (ci_contains q)); [done|].
  intros c series s Hcol Hc Hin. apply Hs.
  pose proof (proj1 (Forall_forall _ _) df_ascii c Hcol series Hc) as Hall.
  rewrite forallb_forall in Hall.
  apply (Hall (Some s)). by apply list_elem_of_In.
Qed.
End Lookup.

(** The small engine treats plain queries literally. *)
Lemma re_atom_plain (c : ascii) :
  is_meta c = false -> re_atom c = Some (Some (lower c)).
Proof.
  intros Hc. unfold re_atom. destruct (Ascii.eqb c ".") eqn:Hdot.
  - apply Ascii.eqb_eq in Hdot. subst c. discriminate Hc.
  - by rewrite Hc.
Qed.

Lemma match_here_literal (p s : string) :
  match_here (map (fun c => Some (lower c)) (list_ascii_of_string p)) s
  = is_prefix (lower_string p) (lower_string s).
Proof.
  revert s. induction p as [|c p IH]; intros s; [done|].
  destruct s as [|b s]; [done|]. simpl. by rewrite IH.
Qed.

Lemma search_anywhere_literal (p s : string) :
  search_anywhere (map (fun c => Some (lower c)) (list_ascii_of_string p)) s
  = ci_contains p s.
Proof.
  unfold ci_contains. induction s as [|b s IH].
  - simpl. by rewrite match_here_literal.
  - cbn [search_anywhere lower_string is_substring].
    by rewrite IH, match_here_literal.
Qed.

Lemma re_small_literal : literal_on_plain re_small.
Proof.
  intros p Hp _.
  exists (search_anywhere (map (fun c => Some (lower c)) (list_ascii_of_string p))).
  split; [|intros s _; apply search_anywhere_literal].
  unfold re_small, plain in *.
  assert (mapM re_atom (list_ascii_of_string p)
          = Some (map (fun c => Some (lower c)) (list_ascii_of_string p))) as ->;
    [|done].
  induction (list_ascii_of_string p) as [|c cs IH]; [done|].
  simpl in Hp. apply andb_true_iff in Hp as [Hc Hcs].
  apply negb_true_iff in Hc.
  cbn [mapM map]. rewrite (re_atom_plain c Hc). simpl. by rewrite (IH Hcs).
Qed.





(** ** Cluster assignment *)

(** The scan keeps the first minimum: with [pre] the values already seen
    and [best] the position of their first minimum, the result is the
    position of the first minimum of the whole list. *)
Lemma argmin_from_spec (ds pre : list Q) (best : nat) (best_d : Q) :
  pre !! best = Some best_d ->
  (forall j d, pre !! j = Some d -> best_d <= d) ->
  (forall j d, pre !! j = Some d -> (j < best)%nat -> best_d < d) ->
  exists rd,
    (pre ++ ds) !! argmin_from (length pre) best best_d ds = Some rd
    /\ (forall j d, (pre ++ ds) !! j = Some d -> rd <= d)
    /\ (forall j d, (pre ++ ds) !! j = Some d ->
                    (j < argmin_from (length pre) best best_d ds)%nat -> rd < d).
Proof.
  revert pre best best_d. induction ds as [|d ds IH];
    intros pre best best_d Hbest Hmin Hfirst.
  - simpl. rewrite app_nil_r. eauto.
  - simpl. rewrite (cons_middle d pre ds), app_assoc.
    replace (S (length pre)) with (length (pre ++ [d]))
      by (rewrite length_app; simpl; lia).
    destruct (Qle_bool best_d d) eqn:Hle.
    + apply Qle_bool_iff in Hle. apply IH.
      * by apply lookup_app_l_Some.
      * intros j dj [Hj|[_ Hj]]%lookup_app_Some; [eauto|].
        apply list_lookup_singleton_Some in Hj as [_ <-]. done.
      * intros j dj Hj Hlt. apply (Hfirst j dj); [|done].
        apply lookup_lt_Some in Hbest. rewrite lookup_app_l in Hj by lia. done.
    + assert (d < best_d) as Hlt.
      { apply Qnot_le_lt. intros H. apply Qle_bool_iff in H. congruence. }
      apply IH.
      * rewrite lookup_app_r by lia. by rewrite Nat.sub_diag.
      * intros j dj [Hj|[_ Hj]]%lookup_app_Some.
        -- apply Qlt_le_weak. eapply Qlt_le_trans; [exact Hlt|]. eauto.
        -- apply list_lookup_singleton_Some in Hj as [_ <-]. apply Qle_refl.
      * intros j dj Hj Hj'. rewrite lookup_app_l in Hj by done.
        eapply Qlt_le_trans; [exact Hlt|]. eauto.
Qed.

Lemma argmin_spec (ds : list Q) :
  ds <> [] ->
  exists i rd,
    argmin ds = Some i /\ ds !! i = Some rd
    /\ (forall j d, ds !! j = Some d -> rd <= d)
    /\ (forall j d, ds !! j = Some d -> (j < i)%nat -> rd < d).
Proof.
  destruct ds as [|d ds]; [done|]. intros _.
  destruct (argmin_from_spec ds [d] 0 d) as (rd & Hr & Hmin & Hfirst).
  - done.
  - intros j dj Hj. apply list_lookup_singleton_Some in Hj as [_ <-].
    apply Qle_refl.
  - intros j dj _ Hj. lia.
  - exists (argmin_from 1 0 d ds), rd. split; [done|]. eauto.
Qed.

(** C8: for a fitted model (at least one centroid) and any input vector,
    [kmeans_predict] returns the index of a centroid at minimal Euclidean
    distance (compared through the squared distance), strictly nearer
    than every centroid of lower index, so the lowest index wins an exact
    tie; the answer is a function of the model and the input, the same at
    every call. *)
Theorem C8_predict_nearest_lowest_index (model : KMeans) (x : list Q) :
  cluster_centers_ model <> [] ->
  exists i c,
    kmeans_predict model x = Return i
    /\ cluster_centers_ model !! i = Some c
    /\ (forall j c', cluster_centers_ model !! j = Some c' ->
                     sq_norm_diff x c <= sq_norm_diff x c')
    /\ (forall j c', cluster_centers_ model !! j = Some c' -> (j < i)%nat ->
                     sq_norm_diff x c < sq_norm_diff x c')
    /\ (forall i', kmeans_predict model x = Return i' -> i' = i).
Proof.
  intros Hne. unfold kmeans_predict.
  destruct (argmin_spec (map (fun c => sq_norm_diff x c) (cluster_centers_ model)))
    as (i & rd & Hi & Hrd & Hmin & Hfirst).
  { by destruct (cluster_centers_ model). }
  rewrite list_lookup_fmap in Hrd.
  destruct (cluster_centers_ model !! i) as [c|] eqn:Hc; [|done].
  injection Hrd as <-. exists i, c. rewrite Hi. simpl.
  split; [done|]. split; [done|]. split; [|split].
  - intros j c' Hj. apply (Hmin j). by rewrite list_lookup_fmap, Hj.
  - intros j c' Hj. apply (Hfirst j). by rewrite list_lookup_fmap, Hj.
  - by intros i' [= <-].
Qed.

Lemma C8_predict_nearest_lowest_index_witness :
  exists i c,
    kmeans_predict kmeans_tie (replicate 6 25) = Return i
    /\ cluster_centers_ kmeans_tie !! i = Some c
    /\ (forall j c', cluster_centers_ kmeans_tie !! j = Some c' ->
                     sq_norm_diff (replicate 6 25) c <= sq_norm_diff (replicate 6 25) c')
    /\ (forall j c', cluster_centers_ kmeans_tie !! j = Some c' -> (j < i)%nat ->
                     sq_norm_diff (replicate 6 25) c < sq_norm_diff (replicate 6 25) c')
    /\ (forall i', kmeans_predict kmeans_tie (replicate 6 25) = Return i' -> i' = i).
Proof.
  apply (C8_predict_nearest_lowest_index kmeans_tie (replicate 6 25)).
  discriminate.
Defined.

(** On an exact tie between the centroids 1 and 2 the answer is 1. *)
Example kmeans_predict_tie :
  kmeans_predict kmeans_tie (replicate 6 25) = Return 1%nat
  /\ sq_norm_diff (replicate 6 25) (replicate 6 0)
     == sq_norm_diff (replicate 6 25) (replicate 6 50).
Proof. split; vm_compute; reflexivity. Qed.

(** ** Fitting the scaler *)

Section ScalerFitFacts.
Import ScalerFit.
Local Open Scope R_scope.

Lemma col_sum_scale (f : R -> R) (c : R) (col : list R) :
  col_sum (map (fun x => f x / c) col) = col_sum (map f col) / c.
Proof.
  induction col as [|x col IH]; simpl.
  - unfold Rdiv. by rewrite Rmult_0_l.
  - rewrite IH. unfold Rdiv. by rewrite Rmult_plus_distr_r.
Qed.

Lemma col_sum_shift (mu : R) (col : list R) :
  col_sum (map (fun x => x - mu) col) = col_sum col - INR (length col) * mu.
Proof.
  induction col as [|x col IH].
  - simpl. lra.
  - change (length (x :: col)) with (S (length col)). rewrite S_INR.
    simpl. rewrite IH. lra.
Qed.

Lemma col_sum_squares_nonneg (f : R -> R) (col : list R) :
  0 <= col_sum (map (fun x => f x * f x) col).
Proof.
  induction col as [|x col IH]; simpl; [lra|].
  pose proof (Rle_0_sqr (f x)) as Hsq. unfold Rsqr in Hsq. lra.
Qed.

Lemma INR_length_pos (col : list R) : col <> [] -> 0 < INR (length col).
Proof.
  intros Hne. apply lt_0_INR. destruct col; [done|]. simpl. lia.
Qed.

Lemma col_var_nonneg (col : list R) : col <> [] -> 0 <= col_var col.
Proof.
  intros Hne. unfold col_var, col_mean at 1. rewrite length_map.
  apply Rmult_le_pos; [apply col_sum_squares_nonneg|].
  apply Rlt_le, Rinv_0_lt_compat. by apply INR_length_pos.
Qed.

Lemma fit_scale_nonzero (col : list R) : fit_scale col <> 0.
Proof. unfold fit_scale. destruct (Req_dec_T (col_std col) 0); lra. Qed.

(** A centred column, divided by any scale, has mean 0. *)
Lemma col_mean_transform (s : R) (col : list R) :
  col <> [] -> col_mean (transform_col (col_mean col) s col) = 0.
Proof.
  intros Hne. pose proof (INR_length_pos col Hne) as Hn.
  unfold transform_col, col_mean at 1.
  rewrite (col_sum_scale (fun x => x - col_mean col)), col_sum_shift.
  unfold col_mean. unfold Rdiv.
  replace (col_sum col - INR (length col) * (col_sum col * / INR (length col)))
    with 0; [by rewrite !Rmult_0_l|].
  field. lra.
Qed.

(** Its variance is the variance of the column over the squared scale. *)
Lemma col_var_transform (s : R) (col : list R) :
  col <> [] -> s <> 0 ->
  col_var (transform_col (col_mean col) s col) = col_var col / (s * s).
Proof.
  intros Hne Hs. pose proof (INR_length_pos col Hne) as Hn.
  unfold col_var. rewrite (col_mean_transform s col Hne).
  set (m := col_mean col). unfold col_mean, transform_col.
  rewrite map_map, !length_map.
  rewrite (map_ext (fun x => ((x - m) / s - 0) * ((x - m) / s - 0))
                   (fun x => (x - m) * (x - m) / (s * s)))
    by (intros x; field; done).
  rewrite (col_sum_scale (fun x => (x - m) * (x - m))).
  set (total := col_sum _). field. split; [lra|done].
Qed.
End ScalerFitFacts.

(** C7: after fitting on a training matrix, no column is divided by zero.
    A column of zero variance gets the scale 1 and is transformed to its
    centred values (value minus column mean); every other column is
    transformed to mean 0 and standard deviation 1. *)
Theorem C7_zero_variance_column_is_centred
    (M : list (list R)) (j : nat) (col : list R) :
  M !! j = Some col -> col <> [] ->
  exists mu s out,
    ScalerFit.means (ScalerFit.fit M) !! j = Some mu
    /\ ScalerFit.scales (ScalerFit.fit M) !! j = Some s
    /\ ScalerFit.transform (ScalerFit.fit M) M !! j = Some out
    /\ mu = ScalerFit.col_mean col
    /\ out = map (fun x => ((x - mu) / s)%R) col
    /\ s <> 0%R
    /\ (ScalerFit.col_var col = 0%R ->
        s = 1%R /\ out = map (fun x => (x - mu)%R) col)
    /\ (ScalerFit.col_var col <> 0%R ->
        ScalerFit.col_mean out = 0%R /\ ScalerFit.col_std out = 1%R).
Proof.
  intros Hj Hne.
  exists (ScalerFit.col_mean col), (ScalerFit.fit_scale col),
    (ScalerFit.transform_col (ScalerFit.col_mean col) (ScalerFit.fit_scale col) col).
  assert (ScalerFit.means (ScalerFit.fit M) !! j = Some (ScalerFit.col_mean col))
    as Hmu by (simpl; by rewrite list_lookup_fmap, Hj).
  assert (ScalerFit.scales (ScalerFit.fit M) !! j = Some (ScalerFit.fit_scale col))
    as Hs by (simpl; by rewrite list_lookup_fmap, Hj).
  split; [done|]. split; [done|]. split.
  { unfold ScalerFit.transform. apply lookup_zip_with_Some.
    exists (ScalerFit.col_mean col, ScalerFit.fit_scale col), col.
    split; [done|]. split; [|done]. apply lookup_zip_with_Some. eauto. }
  split; [done|]. split; [done|].
  split; [apply fit_scale_nonzero|]. split.
  - intros Hvar. assert (ScalerFit.fit_scale col = 1%R) as H1.
    { unfold ScalerFit.fit_scale, ScalerFit.col_std. rewrite Hvar, sqrt_0.
      by destruct (Req_dec_T 0 0). }
    split; [done|]. rewrite H1. unfold ScalerFit.transform_col.
    apply map_ext. intros x. field.
  - intros Hvar. pose proof (col_var_nonneg col Hne) as Hpos.
    assert (ScalerFit.col_std col <> 0%R) as Hstd.
    { intros H0. by apply sqrt_eq_0 in H0. }
    assert (ScalerFit.fit_scale col = ScalerFit.col_std col) as Hscale.
    { unfold ScalerFit.fit_scale.
      by destruct (Req_dec_T (ScalerFit.col_std col) 0). }
    split; [by apply col_mean_transform|].
    unfold ScalerFit.col_std at 1.
    rewrite col_var_transform by (done || apply fit_scale_nonzero).
    rewrite Hscale. unfold ScalerFit.col_std. rewrite sqrt_sqrt by done.
    unfold Rdiv. rewrite Rinv_r by done. apply sqrt_1.
Qed.

Lemma C7_zero_variance_column_is_centred_witness :
  exists mu s out,
    ScalerFit.means (ScalerFit.fit matrix_constant_column) !! 1%nat = Some mu
    /\ ScalerFit.scales (ScalerFit.fit matrix_constant_column) !! 1%nat = Some s
    /\ ScalerFit.transform (ScalerFit.fit matrix_constant_column)
         matrix_constant_column !! 1%nat = Some out
    /\ mu = ScalerFit.col_mean [5; 5]%R
    /\ out = map (fun x => ((x - mu) / s)%R) [5; 5]%R
    /\ s <> 0%R
    /\ (ScalerFit.col_var [5; 5]%R = 0%R ->
        s = 1%R /\ out = map (fun x => (x - mu)%R) [5; 5]%R)
    /\ (ScalerFit.col_var [5; 5]%R <> 0%R ->
        ScalerFit.col_mean out = 0%R /\ ScalerFit.col_std out = 1%R).
Proof.
  apply (C7_zero_variance_column_is_centred matrix_constant_column 1 [5; 5]%R).
  - reflexivity.
  - discriminate.
Defined.

(** * Further properties *)

(** ** Bounds and shapes of the reducers *)

Lemma np_sum_bounds (lo hi : Q) (values : list Q) :
  Forall (fun v => lo <= v /\ v <= hi) values ->
  lo * inject_Z (Z.of_nat (length values)) <= np_sum values
  /\ np_sum values <= hi * inject_Z (Z.of_nat (length values)).
Proof.
  induction 1 as [|v values [Hlo Hhi] _ [IHlo IHhi]].
  - simpl. split; rewrite Qmult_0_r; apply Qle_refl.
  - change (np_sum (v :: values)) with (v + np_sum values).
    change (length (v :: values)) with (S (length values)).
    rewrite Nat2Z.inj_succ. unfold Z.succ. rewrite inject_Z_plus.
    rewrite !Qmult_plus_distr_r, !Qmult_1_r. split.
    + rewrite (Qplus_comm (lo * _)). by apply Qplus_le_compat.
    + rewrite (Qplus_comm (hi * _)). by apply Qplus_le_compat.
Qed.

Lemma inject_nat_pos (n : nat) : n <> 0%nat -> 0 < inject_Z (Z.of_nat n).
Proof. intros Hn. unfold Qlt. simpl. lia. Qed.

(** The mean of a non-empty list lies between any bounds of its entries. *)
Lemma np_mean_bounds (lo hi : Q) (values : list Q) :
  values <> [] ->
  Forall (fun v => lo <= v /\ v <= hi) values ->
  lo <= np_mean values /\ np_mean values <= hi.
Proof.
  intros Hne Hall. destruct (np_sum_bounds lo hi values Hall) as [Hlo Hhi].
  assert (0 < inject_Z (Z.of_nat (length values))) as Hpos.
  { apply inject_nat_pos. by destruct values. }
  rewrite np_mean_spec. split.
  - by apply Qle_shift_div_l.
  - by apply Qle_shift_div_r.
Qed.

Lemma style_dims_candidates_nonempty :
  Forall (fun sd : string * list string => sd.2 <> []) style_dims.
Proof. repeat constructor; discriminate. Qed.

Lemma reducer_values_bounded (attributes : gmap string Q) (lo hi : Q) :
  lo <= 50 -> 50 <= hi ->
  map_Forall (fun _ v => lo <= v /\ v <= hi) attributes ->
  Forall (fun v => lo <= v /\ v <= hi) (create_style_dimensions attributes).
Proof.
  intros Hlo Hhi Hall.
  unfold create_style_dimensions. apply Forall_fmap.
  eapply Forall_impl; [exact style_dims_candidates_nonempty|].
  intros [dimension attrs] Hne. simpl in *. apply np_mean_bounds.
  - by destruct attrs.
  - apply Forall_fmap, Forall_forall. intros a _. unfold get_or_50. simpl.
    destruct (attributes !! a) as [v|] eqn:Ha; simpl; [|done].
    by apply (Hall a v).
Qed.

Lemma feature_column_length (df : DataFrame) (attrs : list string) :
  length (feature_column df attrs) = len_df df.
Proof.
  unfold feature_column. destruct (available_attrs df attrs).
  - apply length_replicate.
  - unfold mean_axis1. by rewrite length_map, length_seq.
Qed.

Lemma transposed_row_length (r n : nat) (columns : list (list Q)) :
  (r < n)%nat -> Forall (fun c => length c = n) columns ->
  length (omap (fun c : list Q => c !! r) columns) = length columns.
Proof.
  intros Hr. induction 1 as [|c columns Hc _ IH]; [done|].
  destruct (lookup_lt_is_Some_2 c r) as [x Hx]; [lia|].
  cbn [omap list_omap]. rewrite Hx. simpl. f_equal. exact IH.
Qed.

Lemma batch_rows_have_six (df : DataFrame) :
  Forall (fun row => length row = 6%nat) (create_style_dimensions_batch df).
Proof.
  unfold create_style_dimensions_batch, transpose.
  apply Forall_fmap, Forall_forall. intros r Hr. cbv beta.
  apply elem_of_seq in Hr as [_ Hr]. unfold compose.
  rewrite transposed_row_length with (n := len_df df).
  - by rewrite length_map.
  - lia.
  - apply Forall_fmap, Forall_forall. intros [dimension attrs] _. simpl.
    apply feature_column_length.
Qed.

(** X2: whatever the table, the batch reducer yields one row per table row
    and exactly six values in every row. *)
Theorem create_style_dimensions_batch_shape (df : DataFrame) :
  length (create_style_dimensions_batch df) = len_df df
  /\ Forall (fun row => length row = 6%nat) (create_style_dimensions_batch df).
Proof.
  split; [apply create_style_dimensions_batch_length|apply batch_rows_have_six].
Qed.

(** ** The request model of [POST /cluster] *)

Lemma list_to_map_fields_lookup (f : string -> Q) (fields : list string) (k : string) :
  (list_to_map (map (fun field => (field, f field)) fields) : gmap string Q) !! k
  = if decide (k ∈ fields) then Some (f k) else None.
Proof.
  induction fields as [|a fields IH].
  - simpl. by rewrite lookup_empty.
  - cbn [map list_to_map foldr fst snd].
    destruct (decide (a = k)) as [->|Hne].
    + rewrite lookup_insert_eq.
      destruct (decide (k ∈ k :: fields)) as [_|Hn]; [done|].
      destruct Hn. left.
    + rewrite lookup_insert_ne by done. rewrite IH.
      destruct (decide (k ∈ fields)) as [Hin|Hnin];
        destruct (decide (k ∈ a :: fields)) as [Hin'|Hnin']; try done.
      * destruct Hnin'. by right.
      * apply elem_of_cons in Hin' as [->|?]; done.
Qed.

Lemma ge_0_le_100_spec (v : Q) : ge_0_le_100 v = true <-> 0 <= v /\ v <= 100.
Proof.
  unfold ge_0_le_100. by rewrite andb_true_iff, !Qle_bool_iff.
Qed.

Lemma style_dims_within_fields :
  Forall (fun sd : string * list string =>
            sd.2 <> [] /\ Forall (fun a => a ∈ attribute_fields) sd.2) style_dims
  /\ attribute_fields = concat (map snd style_dims).
Proof.
  split; [|reflexivity].
  apply (bool_decide_unpack _). vm_compute. reflexivity.
Qed.

(** X4: what validation of a [POST /cluster] body leaves.  A body is
    accepted exactly when each declared field it gives lies in [0, 100];
    the validated record then holds the twenty declared fields and nothing
    else, a field left out being 50.  On such a record the reducer never
    uses its own default: it is the plain mean of the stored values, and
    every dimension lies in [0, 100]. *)
Theorem PlayerAttributes_dict_complete (body : gmap string Q) :
  (is_Some (PlayerAttributes_dict body)
   <-> forall field v, field ∈ attribute_fields -> body !! field = Some v ->
                       0 <= v /\ v <= 100)
  /\ forall attributes, PlayerAttributes_dict body = Some attributes ->
       (forall k, attributes !! k
                  = if decide (k ∈ attribute_fields)
                    then Some (field_value body k) else None)
       /\ create_style_dimensions attributes = reduce_present_only attributes
       /\ Forall (fun v => 0 <= v /\ v <= 100) (create_style_dimensions attributes).
Proof.
  unfold PlayerAttributes_dict. split.
  - destruct (forallb _ attribute_fields) eqn:Hall.
    + split; [|eauto]. intros _ field v Hin Hv.
      rewrite forallb_forall in Hall.
      specialize (Hall field (proj1 (list_elem_of_In _ _) Hin)).
      apply ge_0_le_100_spec in Hall. unfold field_value in Hall.
      by rewrite Hv in Hall.
    + split; [by intros [? ?]|]. intros Hok. exfalso.
      apply not_true_iff_false in Hall. apply Hall.
      apply forallb_forall. intros field Hin. apply ge_0_le_100_spec.
      unfold field_value. destruct (body !! field) as [v|] eqn:Hv; simpl.
      * apply (Hok field v); [by apply list_elem_of_In|done].
      * split; discriminate.
  - intros attributes. destruct (forallb _ attribute_fields) eqn:Hall; [|done].
    intros Heq.
    assert (attributes
            = list_to_map (map (fun field => (field, field_value body field))
                               attribute_fields)) as -> by congruence.
    clear Heq. rewrite forallb_forall in Hall.
    assert (forall k, k ∈ attribute_fields ->
              0 <= field_value body k /\ field_value body k <= 100) as Hrange.
    { intros k Hk. apply ge_0_le_100_spec, Hall. by apply list_elem_of_In. }
    split; [apply (list_to_map_fields_lookup (field_value body))|]. split.
    + unfold create_style_dimensions, reduce_present_only.
      apply map_ext_Forall.
      eapply Forall_impl; [exact (proj1 style_dims_within_fields)|].
      intros [dimension attrs] [Hne Hin]. cbn [snd] in Hne, Hin.
      unfold present_values. rewrite <- get_or_50_present.
      * destruct attrs; [done|reflexivity].
      * eapply Forall_impl; [exact Hin|]. intros a Ha. cbv beta.
        rewrite (list_to_map_fields_lookup (field_value body)).
        rewrite decide_True by done. eauto.
    + apply reducer_values_bounded; [discriminate|discriminate|].
      intros k v. rewrite (list_to_map_fields_lookup (field_value body)).
      destruct (decide (k ∈ attribute_fields)) as [Hk|]; [|done].
      intros [= <-]. by apply Hrange.
Qed.

(** ** [predict_cluster] and the saved artifacts *)

Lemma kmeans_predict_in_range (k : KMeans) (x : list Q) :
  cluster_centers_ k <> [] ->
  exists i, kmeans_predict k x = Return i
            /\ (i < length (cluster_centers_ k))%nat.
Proof.
  intros Hne. unfold kmeans_predict.
  destruct (argmin_spec (map (fun c => sq_norm_diff x c) (cluster_centers_ k)))
    as (i & rd & -> & Hrd & _).
  { by destruct (cluster_centers_ k). }
  exists i. split; [done|].
  apply lookup_lt_Some in Hrd. by rewrite length_map in Hrd.
Qed.

Lemma predict_cluster_returns (g : Globals) (attributes : gmap string Q) :
  length (mean_ (scaler g)) = 6%nat -> length (scale_ (scaler g)) = 6%nat ->
  cluster_centers_ (kmeans g) <> [] ->
  (forall i, (i < length (cluster_centers_ (kmeans g)))%nat ->
             is_Some (cluster_labels g !! py_str i)) ->
  exists cluster_id style,
    predict_cluster g attributes = Return (cluster_id, style)
    /\ (cluster_id < length (cluster_centers_ (kmeans g)))%nat
    /\ cluster_labels g !! py_str cluster_id = Some style.
Proof.
  intros Hmean Hscale Hne Hlabels. unfold predict_cluster.
  rewrite scaler_transform_Return
    by (by rewrite create_style_dimensions_length).
  destruct (kmeans_predict_in_range (kmeans g)
              (zip_with Qdiv
                 (zip_with Qminus (create_style_dimensions attributes)
                    (mean_ (scaler g))) (scale_ (scaler g))) Hne)
    as (i & Hi & Hlt).
  destruct (Hlabels i Hlt) as [style Hstyle].
  exists i, style. cbn [mbind outcome_bind]. rewrite Hi.
  cbn [mbind outcome_bind]. rewrite Hstyle. done.
Qed.

(** X5: [predict_cluster] with consistent artifacts.  With a scaler of six
    features, at least one centroid, six coordinates in every centroid and
    a label for every centroid index, [predict_cluster] answers every
    attribute record with a cluster index below the centroid count and the
    label stored for it; with a scaler of another number of features it
    answers every record with HTTP 500. *)
Theorem predict_cluster_consistent_artifacts (g : Globals) :
  (length (mean_ (scaler g)) = 6%nat -> length (scale_ (scaler g)) = 6%nat ->
   cluster_centers_ (kmeans g) <> [] ->
   Forall (fun c => length c = 6%nat) (cluster_centers_ (kmeans g)) ->
   (forall i, (i < length (cluster_centers_ (kmeans g)))%nat ->
              is_Some (cluster_labels g !! py_str i)) ->
   forall attributes, exists cluster_id style,
     predict_cluster g attributes = Return (cluster_id, style)
     /\ (cluster_id < length (cluster_centers_ (kmeans g)))%nat
     /\ cluster_labels g !! py_str cluster_id = Some style)
  /\ (length (mean_ (scaler g)) <> 6%nat \/ length (scale_ (scaler g)) <> 6%nat ->
      forall attributes, predict_cluster g attributes = RaiseHTTP 500).
Proof.
  split.
  - intros Hmean Hscale Hne _ Hlabels attributes.
    by apply predict_cluster_returns.
  - intros Hbad attributes. unfold predict_cluster.
    rewrite scaler_transform_Raise; [done|].
    rewrite create_style_dimensions_length. destruct Hbad; [left|right]; congruence.
Qed.

Lemma predict_cluster_consistent_artifacts_witness :
  exists cluster_id style,
    predict_cluster globals_six ∅ = Return (cluster_id, style)
    /\ (cluster_id < length (cluster_centers_ (kmeans globals_six)))%nat
    /\ cluster_labels globals_six !! py_str cluster_id = Some style.
Proof.
  apply (proj1 (predict_cluster_consistent_artifacts globals_six)).
  - reflexivity.
  - reflexivity.
  - discriminate.
  - repeat constructor.
  - intros i Hi. simpl in Hi.
    do 6 (destruct i as [|i]; [vm_compute; eauto|]). lia.
Defined.

Global Instance py_str_inj : Inj (=) (=) py_str.
Proof. intros x y H. unfold py_str in H. by apply (inj pretty). Qed.

Lemma CLUSTER_LABELS_domain (k : nat) :
  is_Some (CLUSTER_LABELS !! k) <-> (k < 6)%nat.
Proof.
  split.
  - intros [name Hname]. destruct (decide (k < 6)%nat) as [|Hge]; [done|].
    exfalso. unfold CLUSTER_LABELS in Hname.
    apply elem_of_list_to_map_2 in Hname.
    repeat (apply elem_of_cons in Hname as [[= -> _]|Hname]; [lia|]).
    by apply elem_of_nil in Hname.
  - intros Hk. do 6 (destruct k as [|k]; [vm_compute; eauto|]). lia.
Qed.

(** X6: the labels survive the way through the files.  [save_artifacts]
    writes [CLUSTER_LABELS] with its integer keys turned into strings, and
    [load_models] then finds, under [str(k)], the name [CLUSTER_LABELS]
    gives to [k]: a name for k = 0..5, nothing for any other k, and nothing
    under a key that is not the decimal form of a number.  The scaler and
    the model are loaded as the trainer held them; loading still needs
    [FC26.csv], which saving does not write. *)
Theorem save_artifacts_load_models (self : PlayerStyleTrainer.t) (dir : WorkingDir) :
  (forall csv, FC26_csv (served dir) = Some csv ->
     exists g, load_models (served (save_artifacts self dir)) = Return g
               /\ scaler g = PlayerStyleTrainer.scaler self
               /\ kmeans g = PlayerStyleTrainer.kmeans self
               /\ player_data g = csv
               /\ (forall k, cluster_labels g !! py_str k = CLUSTER_LABELS !! k)
               /\ (forall k, is_Some (cluster_labels g !! py_str k) <-> (k < 6)%nat)
               /\ (forall key, (forall k, key <> py_str k) ->
                               cluster_labels g !! key = None))
  /\ (FC26_csv (served dir) = None ->
      load_models (served (save_artifacts self dir)) = Raise).
Proof.
  split.
  - intros csv Hcsv. eexists. split.
    + unfold load_models, save_artifacts. simpl. rewrite Hcsv. reflexivity.
    + simpl. split; [done|]. split; [done|]. split; [done|].
      unfold json_int_keys. split; [|split].
      * intros k. apply lookup_kmap, _.
      * intros k. rewrite (lookup_kmap py_str). apply CLUSTER_LABELS_domain.
      * intros key Hkey. apply lookup_kmap_None; [apply _|].
        intros k ->. by destruct (Hkey k).
  - intros Hcsv. unfold load_models, save_artifacts. simpl. by rewrite Hcsv.
Qed.

(** X7: a trained model is served without label errors.  For a trainer
    whose scaler has six features and whose model has between one and six
    centroids, after [save_artifacts] and [load_models] every call of
    [predict_cluster] returns a cluster index together with the name
    [CLUSTER_LABELS] gives to that index. *)
Theorem trained_model_is_served
    (self : PlayerStyleTrainer.t) (dir : WorkingDir) (g : Globals) :
  length (mean_ (PlayerStyleTrainer.scaler self)) = 6%nat ->
  length (scale_ (PlayerStyleTrainer.scaler self)) = 6%nat ->
  (1 <= length (cluster_centers_ (PlayerStyleTrainer.kmeans self)) <= 6)%nat ->
  load_models (served (save_artifacts self dir)) = Return g ->
  forall attributes, exists cluster_id style,
    predict_cluster g attributes = Return (cluster_id, style)
    /\ CLUSTER_LABELS !! cluster_id = Some style.
Proof.
  intros Hmean Hscale Hk Hload attributes.
  unfold load_models, save_artifacts in Hload. simpl in Hload.
  destruct (FC26_csv (served dir)) as [csv|]; [|done].
  injection Hload as <-.
  destruct (predict_cluster_returns
              {| scaler := PlayerStyleTrainer.scaler self;
                 kmeans := PlayerStyleTrainer.kmeans self;
                 cluster_labels := json_int_keys CLUSTER_LABELS;
                 player_data := csv |} attributes Hmean Hscale)
    as (cluster_id & style & Hp & _ & Hstyle).
  - simpl. intros Hnil. rewrite Hnil in Hk. simpl in Hk. lia.
  - simpl. intros i Hi. unfold json_int_keys. rewrite (lookup_kmap py_str).
    apply CLUSTER_LABELS_domain. lia.
  - exists cluster_id, style. split; [done|].
    simpl in Hstyle. unfold json_int_keys in Hstyle.
    by rewrite (lookup_kmap py_str) in Hstyle.
Qed.

Lemma trained_model_is_served_witness :
  exists cluster_id style,
    predict_cluster
      {| scaler := scaler_three; kmeans := kmeans_six;
         cluster_labels := json_int_keys CLUSTER_LABELS;
         player_data := df_three |} record_C9
    = Return (cluster_id, style)
    /\ CLUSTER_LABELS !! cluster_id = Some style.
Proof.
  apply (trained_model_is_served trainer_six dir_with_csv).
  - reflexivity.
  - reflexivity.
  - simpl. lia.
  - reflexivity.
Defined.

(** ** The lookup, for any pattern and engine *)

(** X8: how the lookup fails.  It raises (HTTP 500 for the caller) in two
    cases and no other: the query is not a valid regular expression and
    the table has at least one of the four name columns; or the query
    compiles and the scan meets, before any match, a name column with rows
    and not one name in them (its [.str] accessor raises).  Without any of
    the four columns it answers 404 whatever the query, valid or not. *)
Theorem find_player_failures
    (re : string -> option (string -> bool)) (df : DataFrame) (q : string) :
  (find_player re df q = Raise
   <-> (re q = None
        /\ Exists (fun c => is_Some (text_cols df !! c)) name_columns)
       \/ (exists search before c after,
             re q = Some search
             /\ name_columns = before ++ c :: after
             /\ Forall (col_silent search df) before
             /\ column_unreadable df c))
  /\ (Forall (fun c => text_cols df !! c = None) name_columns ->
      find_player re df q = RaiseHTTP 404).
Proof.
  split.
  - destruct (re q) as [search|] eqn:Hre.
    + rewrite (find_player_compiled re df q search Hre). split.
      * destruct (lookup_first search df name_columns) as [| |c] eqn:Hl;
          try done.
        intros _. right.
        apply lookup_first_NotStrings in Hl as (before & after & H).
        by exists search, before, c, after.
      * intros [[? _]|(search' & before & c & after & [= <-] & H)]; [done|].
        assert (lookup_first search df name_columns = NotStrings c) as ->;
          [|done].
        apply lookup_first_NotStrings. by exists before, after.
    + rewrite (find_player_uncompiled re df q Hre).
      destruct (decide (Exists _ name_columns)) as [Hex|Hnex].
      * split; [by left|done].
      * split; [done|]. intros [[_ ?]|(search & _ & _ & _ & ? & _)]; done.
  - intros Hnone.
    assert (forall mask, name_loop re df q name_columns mask = Return (mask, None))
      as Hloop.
    { induction Hnone as [|c cols Hc _ IH]; intros mask; [done|].
      simpl. rewrite Hc. apply IH. }
    unfold find_player. rewrite Hloop. reflexivity.
Qed.

Example all_empty_short_name_raises :
  re_small "Messi" <> None
  /\ find_player re_small df_no_short_names "Messi" = Raise
  /\ find_similar_players re_small
       {| scaler := scaler_identity; kmeans := kmeans_two;
          cluster_labels := ∅; player_data := df_no_short_names |}
       {| player_name := "Messi"; top_n := 5 |}
     = RaiseHTTP 500.
Proof. split; [discriminate|]. split; vm_compute; reflexivity. Qed.

(** X9: what a successful lookup has found, for any query.  The query
    compiled; the column returned is one of the four name columns and
    exists; the row returned holds a name (not a missing value) that the
    pattern matches; no earlier row of that column matches, and no cell of
    an earlier name column does. *)
Theorem find_player_sound
    (re : string -> option (string -> bool)) (df : DataFrame) (q c : string)
    (i : nat) :
  find_player re df q = Return (c, i) ->
  exists search series name before after,
    re q = Some search
    /\ name_columns = before ++ c :: after
    /\ text_cols df !! c = Some series
    /\ series !! i = Some (Some name)
    /\ search name = true
    /\ (forall j cell, (j < i)%nat -> series !! j = Some cell ->
                       cell_search search cell = false)
    /\ Forall (fun b => forall series', text_cols df !! b = Some series' ->
                 Forall (fun cell => cell_search search cell = false) series')
              before.
Proof.
  intros Hfound. destruct (re q) as [search|] eqn:Hre.
  - rewrite (find_player_compiled re df q search Hre) in Hfound.
    destruct (lookup_first search df name_columns) as [c' i'| |c'] eqn:Hl;
      try done.
    injection Hfound as -> ->.
    apply lookup_first_Found in Hl as (before & after & Hcols & Hsil & Hm).
    destruct Hm as (series & Hc & (cell & Hi & Hcell) & Hbefore).
    destruct cell as [name|]; [|done].
    exists search, series, name, before, after. repeat split; try done.
    eapply Forall_impl; [exact Hsil|]. intros b Hb series' Hs'.
    by destruct (Hb series' Hs').
  - rewrite (find_player_uncompiled re df q Hre) in Hfound.
    by destruct (decide (Exists _ name_columns)).
Qed.

Lemma find_player_sound_witness :
  exists search series name before after,
    re_small "Me.si" = Some search
    /\ name_columns = before ++ "short_name"%string :: after
    /\ text_cols df_names !! "short_name"%string = Some series
    /\ series !! 0%nat = Some (Some name)
    /\ search name = true
    /\ (forall j cell, (j < 0)%nat -> series !! j = Some cell ->
                       cell_search search cell = false)
    /\ Forall (fun b => forall series', text_cols df_names !! b = Some series' ->
                 Forall (fun cell => cell_search search cell = false) series')
              before.
Proof.
  apply (find_player_sound re_small df_names "Me.si" "short_name" 0).
  vm_compute. reflexivity.
Defined.

(** ** The ranking, on well-formed artifacts *)

Lemma py_slice_sublist {A : Type} (start stop : Z) (l : list A) :
  py_slice start stop l `sublist_of` l.
Proof.
  unfold py_slice. etransitivity; [apply sublist_take|apply sublist_drop].
Qed.

Lemma distances_from_Return (g : Globals) (row : nat) :
  length (mean_ (scaler g)) = 6%nat -> length (scale_ (scaler g)) = 6%nat ->
  exists distances, distances_from g row = Return distances.
Proof.
  intros Hmean Hscale. unfold distances_from.
  rewrite scaler_transform_Return by (by rewrite create_style_dimensions_length).
  cbn [mbind outcome_bind].
  destruct (for_each_Return (scaler_transform (scaler g))
              (create_style_dimensions_batch (player_data g))) as [xs ->].
  - eapply Forall_impl; [apply batch_rows_have_six|].
    intros x Hx. eexists. apply scaler_transform_Return; congruence.
  - simpl. eauto.
Qed.

Lemma similar_indices_valid (g : Globals) (row : nat) (top : Z) (indices : list nat) :
  similar_indices g row top = Return indices ->
  NoDup indices /\ Forall (fun i => (i < len_df (player_data g))%nat) indices.
Proof.
  unfold similar_indices.
  destruct (distances_from g row) as [distances| |] eqn:Hd; simpl; try done.
  intros [= <-].
  pose proof (distances_from_length g row distances Hd) as Hlen.
  destruct (np_argsort_spec distances) as [Hperm _].
  pose proof (py_slice_sublist 1 (top + 1) (np_argsort distances)) as Hsub.
  split.
  - eapply sublist_NoDup; [|exact Hsub]. rewrite Hperm. apply NoDup_seq.
  - apply Forall_forall. intros i Hi.
    apply (sublist_subseteq _ _ Hsub) in Hi. rewrite Hperm in Hi.
    apply elem_of_seq in Hi. lia.
Qed.

(** X10: the rows returned by the ranking.  Whatever the requested count
    (negative counts included), the indices selected are distinct rows of
    the table: no player is listed twice and no index is out of range. *)
Theorem similar_indices_distinct_rows
    (g : Globals) (row : nat) (top : Z) (indices : list nat) :
  similar_indices g row top = Return indices ->
  NoDup indices
  /\ Forall (fun i => (i < len_df (player_data g))%nat) indices
  /\ (length indices <= len_df (player_data g) - 1)%nat.
Proof.
  intros H. destruct (similar_indices_valid g row top indices H) as [Hnd Hlt].
  split; [done|]. split; [done|].
  unfold similar_indices in H.
  destruct (distances_from g row) as [distances| |] eqn:Hd; simpl in H; try done.
  injection H as <-.
  pose proof (distances_from_length g row distances Hd) as Hlen.
  unfold py_slice. rewrite length_take. etransitivity; [apply Nat.le_min_r|].
  rewrite length_drop, np_argsort_length, Hlen.
  clear. generalize (len_df (player_data g)). intros n.
  destruct (Z.ltb_spec 1 0) as [?|_]; lia.
Qed.

Lemma similar_indices_distinct_rows_witness :
  NoDup [1%nat; 2%nat]
  /\ Forall (fun i => (i < len_df (player_data globals_three))%nat) [1%nat; 2%nat]
  /\ (length [1%nat; 2%nat] <= len_df (player_data globals_three) - 1)%nat.
Proof.
  apply (similar_indices_distinct_rows globals_three 0 2).
  vm_compute. reflexivity.
Defined.

(** X11: with a well-formed table in which no name is missing, a scaler of
    six features and a query that compiles, [find_similar_players] never
    answers 500: it answers 404 when no name column has a match and a list
    of names otherwise. *)
Theorem find_similar_players_no_500
    (re : string -> option (string -> bool)) (g : Globals)
    (request : SimilarPlayerRequest) (search : string -> bool) :
  df_wf (player_data g) -> names_complete (player_data g) ->
  length (mean_ (scaler g)) = 6%nat -> length (scale_ (scaler g)) = 6%nat ->
  re (player_name request) = Some search ->
  (lookup_first search (player_data g) name_columns = NotFound
   /\ find_similar_players re g request = RaiseHTTP 404)
  \/ (exists c row names,
        lookup_first search (player_data g) name_columns = Found c row
        /\ find_similar_players re g request = Return names).
Proof.
  intros [Hwf _] Hnames Hmean Hscale Hre. unfold find_similar_players.
  rewrite (find_player_compiled re _ _ search Hre).
  destruct (lookup_first search (player_data g) name_columns)
    as [c row| |c] eqn:Hl.
  - right. exists c, row.
    apply lookup_first_Found in Hl as (before & after & Hcols & _ & Hm).
    destruct Hm as (series & Hc & _).
    assert (Forall is_Some series) as Hsome.
    { eapply (proj1 (Forall_forall _ _) Hnames c); [|done].
      rewrite Hcols. apply elem_of_app. right. by left. }
    cbn [mbind outcome_bind].
    destruct (distances_from_Return g row Hmean Hscale) as [distances Hd].
    destruct (similar_indices g row (top_n request)) as [indices| |] eqn:Hi;
      try (unfold similar_indices in Hi; rewrite Hd in Hi; done).
    cbn [mbind outcome_bind]. unfold names_at. rewrite Hc.
    cbn [or_raise mbind outcome_bind].
    destruct (similar_indices_valid g row _ indices Hi) as [_ Hlt].
    assert (exists names,
              Forall2 (fun i name => series !! i = Some (Some name)) indices names)
      as [names Hrows].
    { clear Hi. induction Hlt as [|i indices Hi' _ [names IH]]; [by exists []|].
      destruct (lookup_lt_is_Some_2 series i) as [cell Hcell];
        [by rewrite (Hwf c series Hc)|].
      destruct (proj1 (Forall_forall _ _) Hsome cell) as [name ->];
        [by eapply list_elem_of_lookup_2|].
      exists (name :: names). by constructor. }
    exists names. split; [done|].
    assert (for_each (fun i => or_raise (series !! i)) indices
            = Return (Some <$> names)) as ->.
    { clear Hi Hlt. induction Hrows as [|i name indices names Hi' _ IH]; [done|].
      simpl. rewrite Hi'. simpl. by rewrite IH. }
    cbn [mbind outcome_bind]. unfold SimilarPlayerResponse.
    assert (for_each or_raise (Some <$> names) = Return names) as ->; [|done].
    clear. induction names as [|name names IH]; [done|].
    change (Some <$> name :: names) with (Some name :: (Some <$> names)).
    cbn [for_each or_raise mbind outcome_bind]. by rewrite IH.
  - left. done.
  - exfalso.
    apply lookup_first_NotStrings in Hl
      as (before & after & Hcols & _ & series & Hc & Hd).
    assert (Forall is_Some series) as Hsome.
    { eapply (proj1 (Forall_forall _ _) Hnames c); [|done].
      rewrite Hcols. apply elem_of_app. right. by left. }
    destruct Hsome as [|cell series [name ->] _]; [done|].
    cbn [str_dtype existsb] in Hd.
    rewrite bool_decide_eq_true_2 in Hd by eauto. done.
Qed.

Lemma find_similar_players_no_500_witness :
  (lookup_first (default (fun _ => false) (re_small "a"))
     (player_data globals_three) name_columns = NotFound
   /\ find_similar_players re_small globals_three
        {| player_name := "a"; top_n := 2 |} = RaiseHTTP 404)
  \/ (exists c row names,
        lookup_first (default (fun _ => false) (re_small "a"))
          (player_data globals_three) name_columns = Found c row
        /\ find_similar_players re_small globals_three
             {| player_name := "a"; top_n := 2 |} = Return names).
Proof.
  apply (find_similar_players_no_500 re_small globals_three
           {| player_name := "a"; top_n := 2 |}).
  - split; apply (bool_decide_unpack _); vm_compute; reflexivity.
  - unfold names_complete.
    repeat (apply Forall_cons_2 || apply Forall_nil_2);
      intros series Hs; vm_compute in Hs;
      [injection Hs as <-; repeat constructor; eauto
      |discriminate Hs|discriminate Hs|discriminate Hs].
  - reflexivity.
  - reflexivity.
  - reflexivity.
Defined.

(** X12: asking for more similar players extends the answer.  For the same
    name and counts 0 <= k <= k', the list returned for k is a prefix of
    the list returned for k'. *)
Theorem more_results_extend
    (re : string -> option (string -> bool)) (g : Globals) (q : string)
    (k k' : Z) (names names' : list string) :
  (0 <= k <= k')%Z ->
  find_similar_players re g {| player_name := q; top_n := k |} = Return names ->
  find_similar_players re g {| player_name := q; top_n := k' |} = Return names' ->
  names `prefix_of` names'.
Proof.
  intros Hk. unfold find_similar_players, except_500, similar_indices. simpl.
  destruct (find_player re (player_data g) q) as [[c row]| |]; simpl; try done.
  destruct (distances_from g row) as [distances| |]; simpl; try done.
  rewrite !py_slice_1 by lia.
  set (sorted := drop 1 (np_argsort distances)).
  assert (take (Z.to_nat k) sorted
          = take (Z.to_nat k) (take (Z.to_nat k') sorted)) as Htake.
  { rewrite take_take. f_equal. lia. }
  destruct (names_at _ c (take (Z.to_nat k) sorted)) as [ns| |] eqn:Hn;
    simpl; try done.
  destruct (names_at _ c (take (Z.to_nat k') sorted)) as [ns'| |] eqn:Hn';
    simpl; try done.
  destruct (SimilarPlayerResponse ns) as [r| |] eqn:Hr; try done.
  destruct (SimilarPlayerResponse ns') as [r'| |] eqn:Hr'; try done.
  intros [= <-] [= <-]. unfold names_at in Hn, Hn'.
  destruct (text_cols (player_data g) !! c) as [series|]; [|done].
  simpl in Hn, Hn'.
  rewrite <- (take_drop (Z.to_nat k) (take (Z.to_nat k') sorted)) in Hn'.
  rewrite <- Htake in Hn'.
  apply for_each_app in Hn' as (bs1 & bs2 & Hbs1 & ->).
  rewrite Hn in Hbs1. injection Hbs1 as <-.
  unfold SimilarPlayerResponse in Hr, Hr'.
  apply for_each_app in Hr' as (rs1 & rs2 & Hrs1 & ->).
  rewrite Hr in Hrs1. injection Hrs1 as <-. by exists rs2.
Qed.

Lemma more_results_extend_witness :
  ["B"%string] `prefix_of` ["B"%string; "C"%string].
Proof.
  apply (more_results_extend re_small globals_three "a" 1 2).
  - lia.
  - vm_compute. reflexivity.
  - vm_compute. reflexivity.
Defined.

(** ** The query's own row *)

Lemma sq_norm_diff_self (x : list Q) : sq_norm_diff x x == 0.
Proof.
  unfold sq_norm_diff. induction x as [|v x IH]; [reflexivity|].
  cbn [zip_with]. change (np_sum (?a :: ?l)) with (a + np_sum l).
  rewrite IH. ring.
Qed.

Lemma Qsquare_nonneg (a : Q) : 0 <= a * a.
Proof. unfold Qle. simpl. rewrite Z.mul_1_r. apply Z.square_nonneg. Qed.

Lemma sq_norm_diff_nonneg (x y : list Q) : 0 <= sq_norm_diff x y.
Proof.
  unfold sq_norm_diff. revert y. induction x as [|v x IH]; intros [|w y];
    try apply Qle_refl.
  cbn [zip_with]. change (np_sum (?a :: ?l)) with (a + np_sum l).
  rewrite <- (Qplus_0_r 0).
  apply Qplus_le_compat; [apply Qsquare_nonneg|apply IH].
Qed.

(** X13: the query's own row on an aligned table.  On a well-formed table
    aligned with the single reducer, the distance of the matched row to the
    query is zero and no distance is negative; hence, when no other row is
    at distance zero, the matched row is not among the rows returned. *)
Theorem own_row_at_distance_zero
    (g : Globals) (row : nat) (distances : list Q) :
  df_wf (player_data g) -> schema_aligned (player_data g) ->
  (row < len_df (player_data g))%nat ->
  distances_from g row = Return distances ->
  (exists d, distances !! row = Some d /\ d == 0)
  /\ Forall (fun d => 0 <= d) distances
  /\ ((forall j d, j <> row -> distances !! j = Some d -> ~ d == 0) ->
      forall top indices, similar_indices g row top = Return indices ->
                          row ∉ indices).
Proof.
  intros Hwf Hal Hrow Hd.
  assert (create_style_dimensions_batch (player_data g) !! row
          = Some (create_style_dimensions (to_dict (player_data g) row))) as Hbatch.
  { unfold create_style_dimensions_batch, transpose.
    rewrite list_lookup_fmap, lookup_seq_lt by done.
    cbn [fmap option_fmap option_map]. f_equal.
    apply (transposed_row_agrees _ row style_dims style_dims_batch Hwf Hrow).
    by apply schema_aligned_available. }
  pose proof Hd as Hd0. unfold distances_from in Hd.
  destruct (scaler_transform _ (create_style_dimensions _)) as [ps| |] eqn:Hps;
    simpl in Hd; try done.
  destruct (for_each _ _) as [xs| |] eqn:Hxs; simpl in Hd; try done.
  injection Hd as <-.
  destruct (for_each_lookup _ _ _ _ _ Hxs Hbatch) as (x & Hx & Hxrow).
  rewrite Hps in Hx. injection Hx as <-.
  assert (exists d, map (fun x => sq_norm_diff x ps) xs !! row = Some d /\ d == 0)
    as (d0 & Hd0row & Hzero).
  { exists (sq_norm_diff ps ps). rewrite list_lookup_fmap, Hxrow.
    split; [done|apply sq_norm_diff_self]. }
  assert (Forall (fun d => 0 <= d) (map (fun x => sq_norm_diff x ps) xs)) as Hnonneg.
  { apply Forall_fmap, Forall_forall. intros x _. apply sq_norm_diff_nonneg. }
  split; [eauto|]. split; [done|].
  intros Hother top indices Hi. unfold similar_indices in Hi.
  rewrite Hd0 in Hi. simpl in Hi. injection Hi as <-.
  apply (own_row_excluded_when_strictly_nearest _ row d0); [done|].
  intros j d Hj Hjd. rewrite Hzero.
  destruct (Qle_lt_or_eq 0 d) as [Hlt|Heq]; [|done|].
  - eapply (proj1 (Forall_forall _ _) Hnonneg). by eapply list_elem_of_lookup_2.
  - destruct (Hother j d Hj Hjd). by symmetry.
Qed.

Lemma own_row_at_distance_zero_witness :
  (exists d, [0; 4 # 4; 225 # 9] !! 0%nat = Some d /\ d == 0)
  /\ Forall (fun d => 0 <= d) [0; 4 # 4; 225 # 9]
  /\ ((forall j d, j <> 0%nat -> [0; 4 # 4; 225 # 9] !! j = Some d -> ~ d == 0) ->
      forall top indices, similar_indices globals_three 0 top = Return indices ->
                          0%nat ∉ indices).
Proof.
  apply (own_row_at_distance_zero globals_three 0).
  - split; apply (bool_decide_unpack _); vm_compute; reflexivity.
  - split; apply (bool_decide_unpack _); vm_compute; reflexivity.
  - simpl. lia.
  - vm_compute. reflexivity.
Defined.

(** ** The profile route *)

Lemma no_http_bind {A B : Type} (m : outcome A) (f : A -> outcome B) :
  no_http m -> (forall a, no_http (f a)) -> no_http (m ≫= f).
Proof.
  intros Hm Hf code. destruct m as [a|c|]; simpl; [apply Hf| |done].
  by destruct (Hm c).
Qed.

Lemma no_http_or_raise {A : Type} (o : option A) : no_http (or_raise o).
Proof. intros code. by destruct o. Qed.

Lemma no_http_Return {A : Type} (a : A) : no_http (Return a).
Proof. by intros code. Qed.

Lemma no_http_scaler_transform (s : StandardScaler) (x : list Q) :
  no_http (scaler_transform s x).
Proof. intros code. unfold scaler_transform. by destruct (decide _). Qed.

Lemma no_http_for_each {A B : Type} (f : A -> outcome B) (l : list A) :
  (forall a, no_http (f a)) -> no_http (for_each f l).
Proof.
  intros Hf. induction l as [|a l IH]; [apply no_http_Return|].
  simpl. apply no_http_bind; [apply Hf|]. intros b.
  apply no_http_bind; [apply IH|]. intros bs. apply no_http_Return.
Qed.

Lemma no_http_int_if_present (df : DataFrame) (col : string) (row : nat) :
  no_http (int_if_present df col row).
Proof.
  unfold int_if_present. destruct (num_cols df !! col); [|apply no_http_Return].
  apply no_http_bind; [apply no_http_or_raise|]. intros v. apply no_http_Return.
Qed.

Lemma no_http_text_if_present (df : DataFrame) (col : string) (row : nat)
    (otherwise : outcome (option (option string))) :
  no_http otherwise -> no_http (text_if_present df col row otherwise).
Proof.
  intros Ho. unfold text_if_present. destruct (text_cols df !! col); [|done].
  apply no_http_bind; [apply no_http_or_raise|]. intros v. apply no_http_Return.
Qed.

Lemma except_500_404 {A : Type} (body : outcome A) :
  except_500 body = RaiseHTTP 404 <-> body = RaiseHTTP 404.
Proof. destruct body as [a|c|]; simpl; split; congruence. Qed.

Lemma bind_404 {A B : Type} (m : outcome A) (f : A -> outcome B) :
  (forall a, no_http (f a)) ->
  (m ≫= f) = RaiseHTTP 404 <-> m = RaiseHTTP 404.
Proof.
  intros Hf. destruct m as [a|c|]; simpl.
  - split; [|done]. intros H. by destruct (Hf a 404%nat).
  - split; congruence.
  - split; congruence.
Qed.

Lemma no_http_profile_rest (g : Globals) (found : string * nat) :
  no_http (
    let '(name_col_used, row) := found in
    let features := create_style_dimensions (to_dict (player_data g) row) in
    features_scaled ← scaler_transform (scaler g) features;
    cluster_id ← kmeans_predict (kmeans g) features_scaled;
    names ← or_raise (text_cols (player_data g) !! name_col_used);
    name ← or_raise (names !! row);
    age ← int_if_present (player_data g) "age" row;
    overall ← int_if_present (player_data g) "overall" row;
    positions ← text_if_present (player_data g) "player_positions" row
                  (text_if_present (player_data g) "positions" row (Return None));
    style ← or_raise (cluster_labels g !! py_str cluster_id);
    Return {| profile_name := name; profile_age := age;
              profile_overall := overall; profile_positions := positions;
              profile_cluster_id := cluster_id; profile_style := style |}).
Proof.
  destruct found as [c row]. cbv zeta.
  apply no_http_bind; [apply no_http_scaler_transform|]. intros x.
  apply no_http_bind; [apply no_http_or_raise|]. intros cluster_id.
  apply no_http_bind; [apply no_http_or_raise|]. intros names.
  apply no_http_bind; [apply no_http_or_raise|]. intros name.
  apply no_http_bind; [apply no_http_int_if_present|]. intros age.
  apply no_http_bind; [apply no_http_int_if_present|]. intros overall.
  apply no_http_bind.
  { apply no_http_text_if_present, no_http_text_if_present, no_http_Return. }
  intros positions.
  apply no_http_bind; [apply no_http_or_raise|]. intros style.
  apply no_http_Return.
Qed.

Lemma no_http_similar_rest (g : Globals) (top : Z) (found : string * nat) :
  no_http (
    let '(name_col_used, row) := found in
    indices ← similar_indices g row top;
    similar_names ← names_at (player_data g) name_col_used indices;
    SimilarPlayerResponse similar_names).
Proof.
  destruct found as [c row].
  apply no_http_bind.
  - unfold similar_indices. apply no_http_bind; [|intros; apply no_http_Return].
    unfold distances_from.
    apply no_http_bind; [apply no_http_scaler_transform|]. intros ps.
    apply no_http_bind; [|intros; apply no_http_Return].
    apply no_http_for_each. apply no_http_scaler_transform.
  - intros indices. apply no_http_bind.
    + unfold names_at.
      apply no_http_bind; [apply no_http_or_raise|]. intros series.
      apply no_http_for_each. intros i. apply no_http_or_raise.
    + intros similar_names. apply no_http_for_each. apply no_http_or_raise.
Qed.

(** X14: the two name routes fail and succeed together.  For the same
    query, [get_player_profile] answers 404 exactly when the lookup finds
    no player, and so does [find_similar_players], whatever the requested
    count; neither answers any other HTTP error than 404 and 500.  When the
    profile is returned, its name is the cell of the matched row in the
    column used, and its cluster and style are what [predict_cluster]
    returns for the row taken as an attribute record. *)
Theorem get_player_profile_agrees
    (re : string -> option (string -> bool)) (g : Globals) (q : string) :
  (get_player_profile re g q = RaiseHTTP 404
   <-> find_player re (player_data g) q = RaiseHTTP 404)
  /\ (forall top, find_similar_players re g {| player_name := q; top_n := top |}
                  = RaiseHTTP 404
                  <-> find_player re (player_data g) q = RaiseHTTP 404)
  /\ (forall code, get_player_profile re g q = RaiseHTTP code ->
                   code = 404%nat \/ code = 500%nat)
  /\ (forall profile, get_player_profile re g q = Return profile ->
        exists c row names,
          find_player re (player_data g) q = Return (c, row)
          /\ text_cols (player_data g) !! c = Some names
          /\ names !! row = Some (profile_name profile)
          /\ predict_cluster g (to_dict (player_data g) row)
             = Return (profile_cluster_id profile, profile_style profile)).
Proof.
  split; [|split; [|split]].
  - unfold get_player_profile. rewrite except_500_404.
    apply bind_404. apply no_http_profile_rest.
  - intros top. unfold find_similar_players. rewrite except_500_404.
    apply bind_404. intros found. apply (no_http_similar_rest g top found).
  - intros code. unfold get_player_profile.
    destruct (find_player re (player_data g) q) as [found|c|] eqn:Hf.
    + cbn [mbind outcome_bind].
      pose proof (no_http_profile_rest g found) as Hrest.
      destruct found as [c row].
      match goal with
      | |- except_500 ?body = _ -> _ => destruct body as [p|c'|] eqn:Hbody
      end; simpl.
      * done.
      * by destruct (Hrest c').
      * intros [= <-]. by right.
    + simpl. intros [= <-].
      destruct (re q) as [search|] eqn:Hre.
      * rewrite (find_player_compiled re _ _ search Hre) in Hf.
        destruct (lookup_first search (player_data g) name_columns);
          try done. injection Hf as <-. by left.
      * rewrite (find_player_uncompiled re _ _ Hre) in Hf.
        destruct (decide (Exists _ name_columns)); [done|].
        injection Hf as <-. by left.
    + simpl. intros [= <-]. by right.
  - intros profile. unfold get_player_profile.
    destruct (find_player re (player_data g) q) as [[c row]| |]; simpl; try done.
    destruct (scaler_transform _ _) as [x| |] eqn:Hx; simpl; try done.
    destruct (kmeans_predict _ x) as [cluster_id| |] eqn:Hid; simpl; try done.
    destruct (text_cols (player_data g) !! c) as [names|] eqn:Hc; simpl; try done.
    destruct (names !! row) as [name|] eqn:Hname; simpl; try done.
    destruct (int_if_present _ "age" row) as [age| |]; simpl; try done.
    destruct (int_if_present _ "overall" row) as [overall| |]; simpl; try done.
    destruct (text_if_present _ "player_positions" row _) as [positions| |];
      simpl; try done.
    destruct (cluster_labels g !! py_str cluster_id) as [style|] eqn:Hstyle;
      simpl; try done.
    intros [= <-]. simpl. exists c, row, names.
    repeat split; try done.
    unfold predict_cluster. rewrite Hx. simpl. rewrite Hid. simpl.
    by rewrite Hstyle.
Qed.

(** ** The globals *)

(** The two readings of [load_models], as a function of the files and as
    an update of the globals, raise together. *)
Lemma load_models_into_load_models (disk : Disk) (st : ModuleState) :
  (load_models disk = Raise <-> (load_models_into disk st).2 = Raise)
  /\ forall g, load_models disk = Return g ->
       load_models_into disk st
       = ({| st_scaler := Some (scaler g); st_kmeans := Some (kmeans g);
             st_cluster_labels := Some (cluster_labels g);
             st_player_data := Some (player_data g) |}, Return tt).
Proof.
  unfold load_models, load_models_into.
  destruct (scaler_pkl disk) as [s|], (kmeans_pkl disk) as [k|],
    (cluster_labels_json disk) as [l|], (FC26_csv disk) as [p|];
    simpl; (split; [split; congruence|]);
    intros g Hg; try discriminate Hg; by injection Hg as <-.
Qed.

(** X15: loading and the health report.  When the four loads succeed,
    whatever the globals held before, the four globals hold the four
    artifacts read, [health_check] reports the models loaded and the
    number of rows of [FC26.csv], and [get_clusters] returns the label map
    read.  When a load raises, [load_models] raises and [player_data],
    which is read last, keeps the value it had.  Before any load the
    report is: not loaded, 0 players. *)
Theorem health_check_after_load (disk : Disk) (st : ModuleState) :
  (forall s k l p,
     scaler_pkl disk = Some s -> kmeans_pkl disk = Some k ->
     cluster_labels_json disk = Some l -> FC26_csv disk = Some p ->
     load_models_into disk st
     = ({| st_scaler := Some s; st_kmeans := Some k;
           st_cluster_labels := Some l; st_player_data := Some p |}, Return tt)
     /\ health_check (load_models_into disk st).1
        = {| status := "ok"; models_loaded := true; total_players := len_df p |}
     /\ get_clusters (load_models_into disk st).1 = Some l)
  /\ (scaler_pkl disk = None \/ kmeans_pkl disk = None
      \/ cluster_labels_json disk = None \/ FC26_csv disk = None ->
      (load_models_into disk st).2 = Raise
      /\ st_player_data (load_models_into disk st).1 = st_player_data st
      /\ total_players (health_check (load_models_into disk st).1)
         = total_players (health_check st))
  /\ health_check initial_state
     = {| status := "ok"; models_loaded := false; total_players := 0 |}.
Proof.
  split; [|split; [|reflexivity]].
  - intros s k l p Hs Hk Hl Hp. unfold load_models_into.
    rewrite Hs, Hk, Hl, Hp. done.
  - unfold load_models_into, health_check.
    destruct (scaler_pkl disk) as [s|], (kmeans_pkl disk) as [k|],
      (cluster_labels_json disk) as [l|], (FC26_csv disk) as [p|];
      simpl; try done.
    intros [?|[?|[?|?]]]; done.
Qed.

Example health_after_startup :
  health_check (load_models_into disk_six initial_state).1
  = {| status := "ok"; models_loaded := true; total_players := 3 |}
  /\ load_models_into
       {| scaler_pkl := Some scaler_identity; kmeans_pkl := Some kmeans_six;
          cluster_labels_json := Some labels_six; FC26_csv := None |}
       initial_state
     = ({| st_scaler := Some scaler_identity; st_kmeans := Some kmeans_six;
           st_cluster_labels := Some labels_six; st_player_data := None |},
        Raise).
Proof. split; reflexivity. Qed.

(** ** The exploration script against the reducer *)

Lemma explore_loop_missing (df : DataFrame) (required : list (string * list string))
    (dimension : string) :
  dimension ∈ (explore_loop df required).2
  <-> exists possible, (dimension, possible) ∈ required
                       /\ available_attrs df possible = [].
Proof.
  unfold available_attrs. induction required as [|[d0 p0] required IH].
  - simpl. split; [by intros ?%elem_of_nil|].
    by intros (? & ?%elem_of_nil & _).
  - cbn [explore_loop]. destruct (explore_loop df required) as [found missing].
    cbn [snd] in IH.
    destruct (filter _ p0) as [|c cs] eqn:Hf; cbn [snd].
    + rewrite elem_of_cons, IH. split.
      * intros [->|(possible & Hin & Hnil)]; [exists p0|exists possible];
          (split; [|done]); [left|by right].
      * intros (possible & [[= -> ->]|Hin]%elem_of_cons & Hnil); [by left|].
        right. eauto.
    + rewrite IH. split.
      * intros (possible & Hin & Hnil). exists possible. split; [by right|done].
      * intros (possible & [[= -> ->]|Hin]%elem_of_cons & Hnil); [congruence|].
        eauto.
Qed.

Lemma explore_loop_found (df : DataFrame) (required : list (string * list string))
    (dimension : string) (found : list string) :
  (dimension, found) ∈ (explore_loop df required).1
  <-> exists possible, (dimension, possible) ∈ required
                       /\ found = available_attrs df possible /\ found <> [].
Proof.
  unfold available_attrs. induction required as [|[d0 p0] required IH].
  - simpl. split; [by intros ?%elem_of_nil|].
    by intros (? & ?%elem_of_nil & _).
  - cbn [explore_loop]. destruct (explore_loop df required) as [fm missing].
    cbn [fst] in IH.
    destruct (filter _ p0) as [|c cs] eqn:Hf; cbn [fst].
    + rewrite IH. split.
      * intros (possible & Hin & Heq & Hne). exists possible.
        split; [by right|done].
      * intros (possible & [[= -> ->]|Hin]%elem_of_cons & Heq & Hne);
          [congruence|]. eauto.
    + rewrite elem_of_cons, IH. split.
      * intros [[= -> ->]|(possible & Hin & Heq & Hne)].
        -- exists p0. split; [left|]. by rewrite Hf.
        -- exists possible. split; [by right|done].
      * intros (possible & [[= -> ->]|Hin]%elem_of_cons & Heq & Hne).
        -- left. by rewrite Heq, Hf.
        -- right. eauto.
Qed.

Lemma available_attrs_subseteq (df : DataFrame) (attrs possible : list string) :
  attrs ⊆ possible -> available_attrs df attrs <> [] ->
  available_attrs df possible <> [].
Proof.
  unfold available_attrs. intros Hsub Hne Hnil.
  destruct (filter _ attrs) as [|c cs] eqn:Hf; [done|].
  assert (c ∈ filter (fun col => is_Some (num_cols df !! col)) attrs) as Hc
    by (rewrite Hf; left).
  apply list_elem_of_filter in Hc as [Hsome Hin].
  assert (c ∈ filter (fun col => is_Some (num_cols df !! col)) possible) as Hc'.
  { apply list_elem_of_filter. split; [done|]. by apply Hsub. }
  rewrite Hnil in Hc'. by apply elem_of_nil in Hc'.
Qed.

Lemma required_attributes_cover :
  Forall2 (fun batch required : string * list string => batch.2 ⊆ required.2)
          style_dims_batch required_attributes
  /\ NoDup (map fst required_attributes).
Proof.
  split; apply (bool_decide_unpack _); vm_compute; reflexivity.
Qed.

Lemma explore_loop_partition (df : DataFrame)
    (required : list (string * list string)) (dimension : string) :
  NoDup (map fst required) -> dimension ∈ map fst required ->
  dimension ∈ map fst (explore_loop df required).1
  <-> dimension ∉ (explore_loop df required).2.
Proof.
  intros Hnodup Hdim. rewrite explore_loop_missing.
  apply list_elem_of_fmap in Hdim as ([d possible] & -> & Hin). cbn [fst].
  split.
  - intros ([d' found] & Hd & (possible' & Hin' & -> & Hne)%explore_loop_found
            )%list_elem_of_fmap.
    cbn [fst] in Hd. subst d'. intros (possible'' & Hin'' & Hnil).
    assert (possible' = possible'') as ->; [|done].
    apply list_elem_of_lookup in Hin' as [i Hi].
    apply list_elem_of_lookup in Hin'' as [j Hj].
    assert (i = j) as ->.
    { apply (NoDup_lookup _ i j d Hnodup);
        rewrite list_lookup_fmap; [by rewrite Hi|by rewrite Hj]. }
    congruence.
  - intros Hnot. apply list_elem_of_fmap.
    exists (d, available_attrs df possible). split; [done|].
    apply explore_loop_found. exists possible. split; [done|].
    split; [done|]. intros Hnil. apply Hnot. eauto.
Qed.

(** X16: the exploration script against the reducers.  Each of the six
    dimensions is reported by [explore_dataset] either as found or as
    missing, never both.  A dimension for which the batch reducer (and the
    trainer's table) finds a column is reported as found; the converse
    does not hold: with the single column [pace] the script reports Pace
    as found while the batch reducer falls back on the default 50. *)
Theorem explore_loop_covers_reducer (df : DataFrame) :
  (forall dimension, dimension ∈ map fst required_attributes ->
     (dimension ∈ map fst (explore_loop df required_attributes).1
      <-> dimension ∉ (explore_loop df required_attributes).2))
  /\ (forall d batch required,
        style_dims_batch !! d = Some batch ->
        required_attributes !! d = Some required ->
        available_attrs df batch.2 <> [] ->
        required.1 ∈ map fst (explore_loop df required_attributes).1)
  /\ ("Pace"%string ∈ map fst (explore_loop df_pace_summary required_attributes).1
      /\ create_style_dimensions_batch df_pace_summary = [replicate 6 50]).
Proof.
  destruct required_attributes_cover as [Hcover Hnodup].
  split; [|split].
  - intros dimension Hdim. by apply explore_loop_partition.
  - intros d batch required Hb Hr Hne.
    pose proof (Forall2_lookup_lr _ _ _ _ _ _ Hcover Hb Hr) as Hsub.
    apply list_elem_of_fmap.
    exists (required.1, available_attrs df required.2). split; [done|].
    apply explore_loop_found. exists required.2.
    split; [|split; [done|]].
    + destruct required. by eapply list_elem_of_lookup_2.
    + cbv beta in Hsub.
      exact (available_attrs_subseteq df batch.2 required.2 Hsub Hne).
  - split; [|vm_compute; reflexivity].
    apply (bool_decide_unpack _). vm_compute. reflexivity.
Qed.

(** ** The cluster statistics of the trainer *)

Lemma sum_list_map_add {A : Type} (f h : A -> nat) (l : list A) :
  sum_list (map (fun x => (f x + h x)%nat) l)
  = (sum_list (map f l) + sum_list (map h l))%nat.
Proof. induction l as [|x l IH]; simpl; lia. Qed.

Lemma sum_indicator (c s n : nat) :
  sum_list (map (fun id => if decide (c = id) then 1%nat else 0%nat) (seq s n))
  = if decide (s <= c < s + n)%nat then 1%nat else 0%nat.
Proof.
  revert s. induction n as [|n IH]; intros s.
  - simpl. by rewrite decide_False by lia.
  - cbn [seq map sum_list foldr]. change (foldr Nat.add 0%nat ?l) with (sum_list l).
    rewrite IH. repeat case_decide; simpl; lia.
Qed.

Lemma mask_count_cons (id c : nat) (labels_ : list nat) :
  length (filter (fun b : bool => b = true)
            (map (fun c => bool_decide (c = id)) (c :: labels_)))
  = ((if decide (c = id) then 1 else 0)
     + length (filter (fun b : bool => b = true)
                 (map (fun c => bool_decide (c = id)) labels_)))%nat.
Proof.
  cbn [map]. destruct (decide (c = id)) as [->|Hne].
  - rewrite bool_decide_eq_true_2 by done. by rewrite filter_cons_True.
  - rewrite bool_decide_eq_false_2 by done. by rewrite filter_cons_False.
Qed.

Lemma select_length {A : Type} (mask : list bool) (column : list A) :
  (length (select mask column)
   <= length (filter (fun b : bool => b = true) mask))%nat.
Proof.
  revert column. induction mask as [|b mask IH]; intros [|x column];
    simpl; try lia.
  destruct b.
  - rewrite filter_cons_True by done. simpl. specialize (IH column). lia.
  - rewrite filter_cons_False by done. apply IH.
Qed.

Lemma cluster_stats_entry_facts (df : DataFrame) (labels_ : list nat)
    (features : list (string * list Q)) (id : nat) :
  let entry := cluster_stats_entry df labels_ features id in
  (length (stats_sample_players entry) <= 5)%nat
  /\ (length (stats_sample_players entry) <= stats_count entry)%nat
  /\ ((id < 6)%nat -> CLUSTER_LABELS !! id = Some (stats_label entry))
  /\ ((6 <= id)%nat -> stats_label entry = ("Cluster " ++ py_str id)%string).
Proof.
  unfold cluster_stats_entry.
  cbn [stats_sample_players stats_count stats_label].
  set (mask := map (fun c => bool_decide (c = id)) labels_).
  assert (forall names : list (option string),
            (length (take 5 (select mask names)) <= 5)%nat
            /\ (length (take 5 (select mask names))
                <= length (filter (fun b : bool => b = true) mask))%nat) as Htake.
  { intros names. rewrite length_take.
    pose proof (select_length mask names). lia. }
  split; [|split; [|split]].
  - destruct (text_cols df !! "short_name"%string); [apply Htake|].
    destruct (text_cols df !! "name"%string); [apply Htake|]. simpl. lia.
  - destruct (text_cols df !! "short_name"%string); [apply Htake|].
    destruct (text_cols df !! "name"%string); [apply Htake|]. simpl. lia.
  - intros Hid. unfold label_or_default.
    destruct (proj2 (CLUSTER_LABELS_domain id) Hid) as [name ->]. done.
  - intros Hid. unfold label_or_default.
    destruct (CLUSTER_LABELS !! id) as [name|] eqn:Hname; [|done].
    assert (id < 6)%nat by (apply CLUSTER_LABELS_domain; eauto). lia.
Qed.

(** X17: the statistics partition the players.  When every label is below
    [n_clusters], the counts of [_calculate_cluster_stats] add up to the
    number of players; there is one entry per cluster number, in order;
    an entry lists at most five sample players and no more than its count;
    and its label is the curated name for the clusters 0 to 5 and
    "Cluster k" for any further cluster k. *)
Theorem cluster_stats_partition
    (n_clusters : nat) (df : DataFrame) (labels_ : list nat)
    (features : list (string * list Q)) :
  Forall (fun c => (c < n_clusters)%nat) labels_ ->
  sum_list (map (fun entry => stats_count entry.2)
                (_calculate_cluster_stats n_clusters df labels_ features))
  = length labels_
  /\ map fst (_calculate_cluster_stats n_clusters df labels_ features)
     = seq 0 n_clusters
  /\ Forall (fun entry : nat * ClusterStats =>
               (length (stats_sample_players entry.2) <= 5)%nat
               /\ (length (stats_sample_players entry.2) <= stats_count entry.2)%nat
               /\ ((entry.1 < 6)%nat ->
                   CLUSTER_LABELS !! entry.1 = Some (stats_label entry.2))
               /\ ((6 <= entry.1)%nat ->
                   stats_label entry.2 = ("Cluster " ++ py_str entry.1)%string))
            (_calculate_cluster_stats n_clusters df labels_ features).
Proof.
  intros Hlabels. unfold _calculate_cluster_stats. split; [|split].
  - rewrite map_map. cbn [snd stats_count cluster_stats_entry].
    induction Hlabels as [|c labels_ Hc _ IH].
    + simpl. induction (seq 0 n_clusters) as [|x l IHl]; simpl; [done|].
      by rewrite IHl.
    + rewrite (map_ext _ (fun id =>
                 ((if decide (c = id) then 1 else 0)
                  + length (filter (fun b : bool => b = true)
                              (map (fun c => bool_decide (c = id)) labels_)))%nat))
        by (intros id; apply mask_count_cons).
      rewrite sum_list_map_add, IH, sum_indicator.
      rewrite decide_True by lia. done.
  - rewrite map_map. simpl. apply map_id.
  - apply Forall_fmap, Forall_forall. intros id _.
    apply (cluster_stats_entry_facts df labels_ features id).
Qed.

Lemma cluster_stats_partition_witness :
  sum_list (map (fun entry => stats_count entry.2)
                (_calculate_cluster_stats 7 df_profile [6%nat; 1%nat]
                   [("pace"%string, [80; 60])]))
  = 2%nat.
Proof.
  apply (cluster_stats_partition 7 df_profile [6%nat; 1%nat]
           [("pace"%string, [80; 60])]).
  repeat constructor.
Defined.

(** ** Keys that do not matter *)

(** X18: [POST /cluster] reads the twenty declared fields only.  Two bodies
    that agree on these fields are validated alike and get the same
    answer, whatever other keys they carry; and with consistent artifacts
    (a scaler of six features, at least one centroid, a label for every
    centroid index) the route answers 422 or a prediction, never 500. *)
Theorem cluster_route_reads_declared_fields (g : Globals) (body body' : gmap string Q) :
  (forall field, field ∈ attribute_fields -> body !! field = body' !! field) ->
  PlayerAttributes_dict body = PlayerAttributes_dict body'
  /\ cluster_route g body = cluster_route g body'
  /\ (length (mean_ (scaler g)) = 6%nat -> length (scale_ (scaler g)) = 6%nat ->
      cluster_centers_ (kmeans g) <> [] ->
      (forall i, (i < length (cluster_centers_ (kmeans g)))%nat ->
                 is_Some (cluster_labels g !! py_str i)) ->
      cluster_route g body = RaiseHTTP 422
      \/ exists prediction, cluster_route g body = Return prediction).
Proof.
  intros Hagree.
  assert (Forall (fun field => field_value body field = field_value body' field)
                 attribute_fields) as Hvalues.
  { apply Forall_forall. intros field Hin. unfold field_value.
    by rewrite (Hagree field Hin). }
  assert (PlayerAttributes_dict body = PlayerAttributes_dict body') as Hdict.
  { unfold PlayerAttributes_dict. revert Hvalues.
    generalize attribute_fields. intros fields Hvalues.
    assert (forallb (fun field => ge_0_le_100 (field_value body field)) fields
            = forallb (fun field => ge_0_le_100 (field_value body' field)) fields)
      as ->.
    { induction Hvalues as [|f fields Hf _ IH]; [done|]. simpl. by rewrite Hf, IH. }
    assert (map (fun field => (field, field_value body field)) fields
            = map (fun field => (field, field_value body' field)) fields) as ->;
      [|done].
    induction Hvalues as [|f fields Hf _ IH]; [done|]. simpl. by rewrite Hf, IH. }
  split; [done|]. split.
  - unfold cluster_route. by rewrite Hdict.
  - intros Hmean Hscale Hne Hlabels. unfold cluster_route.
    destruct (PlayerAttributes_dict body) as [attributes|]; [|by left].
    right.
    destruct (predict_cluster_returns g attributes Hmean Hscale Hne Hlabels)
      as (cluster_id & style & Hp & _).
    by exists (cluster_id, style).
Qed.

Lemma cluster_route_reads_declared_fields_witness :
  cluster_route globals_six body_two_fields
  = cluster_route globals_six (<["extra"%string := 1000]> body_two_fields).
Proof.
  apply (cluster_route_reads_declared_fields globals_six body_two_fields
           (<["extra"%string := 1000]> body_two_fields)).
  intros field Hin. rewrite lookup_insert_ne; [done|].
  intros <-. revert Hin. apply (bool_decide_unpack _). vm_compute. reflexivity.
Defined.
